(** * Hand-assembled x86-64 routines in executable memory

    A shallow embedding of the machine-code experiments of
    [experiments/002-self-modifying-memory] (jit_fibonacci.py, self_modify.py,
    validate_mmap.py) and of the region set-up of
    [experiments/004-executable-image] (image_executor_v2.py).

    The Python scripts assemble bytes in a [bytearray], copy them into an
    anonymous [mmap] region and call the region through a [ctypes] function
    pointer.  Three layers are modelled:

    - [Py]: the Python values and library calls the scripts use (integers as
      [Z], byte strings as [list Z], exceptions as an error monad,
      [bytearray.extend], item assignment, [struct.pack('<I', _)] and the
      [mmap] object with its position, size and protection bits);
    - [X86]: the instructions that occur in the emitted routines, decoded from
      the bytes of the region and executed on the 32-bit register halves;
    - the scripts themselves, statement by statement. *)

From Stdlib Require Import String DecimalString.
From Stdlib Require Import ZArith List Bool Lia.
Import ListNotations.
Open Scope Z_scope.

(** ** Python values and library calls *)

Module Py.

(** The exceptions the modelled calls can raise, with CPython's messages. *)
Inductive exn : Type :=
| ValueError (msg : string)
| IndexError (msg : string)
| TypeError (msg : string)
| OverflowError (msg : string)
| OSError (msg : string)
| StructError (msg : string)
| Crash (msg : string).

Inductive result (A : Type) : Type :=
| Ok (a : A)
| Raise (e : exn).

Arguments Ok {A} a.
Arguments Raise {A} e.

Definition bind {A B : Type} (r : result A) (k : A -> result B) : result B :=
  match r with
  | Ok a => k a
  | Raise e => Raise e
  end.

Definition len {A : Type} (l : list A) : Z := Z.of_nat (length l).

(** [range(lo, hi)] as the list of its values. *)
Definition range (lo hi : Z) : list Z :=
  map (fun k => lo + Z.of_nat k) (seq 0 (Z.to_nat (hi - lo))).

(** A value that fits a byte: [0 <= v < 256]. *)
Definition is_byte (v : Z) : bool := (0 <=? v) && (v <? 256).

(** [code.extend(items)]: every item must be in [range(0, 256)]. *)
Definition bytearray_extend (code items : list Z) : result (list Z) :=
  if forallb is_byte items then Ok (code ++ items)
  else Raise (ValueError "byte must be in range(0, 256)").

(** [code[i] = v]: negative indices count from the end. *)
Definition bytearray_setitem (code : list Z) (i v : Z) : result (list Z) :=
  if negb (is_byte v) then Raise (ValueError "byte must be in range(0, 256)")
  else
    let j := if i <? 0 then i + len code else i in
    if (j <? 0) || (len code <=? j) then
      Raise (IndexError "bytearray index out of range")
    else Ok (firstn (Z.to_nat j) code ++ v :: skipn (Z.to_nat (j + 1)) code).

(** The four bytes of a 32-bit value, least significant first. *)
Definition le_bytes (v : Z) : list Z :=
  [Z.land v 255;
   Z.land (Z.shiftr v 8) 255;
   Z.land (Z.shiftr v 16) 255;
   Z.land (Z.shiftr v 24) 255].

(** [struct.pack('<I', v)]. *)
Definition struct_pack_I (v : Z) : result (list Z) :=
  if (0 <=? v) && (v <=? 4294967295) then Ok (le_bytes v)
  else Raise (StructError "argument out of range").

(** *** The mmap object *)

Definition PROT_READ : Z := 1.
Definition PROT_WRITE : Z := 2.
Definition PROT_EXEC : Z := 4.
Definition MAP_PRIVATE : Z := 2.
Definition MAP_ANONYMOUS : Z := 32.

(** The fields of CPython's [mmap_object] that the scripts depend on: the
    mapped bytes, their number, the file position, and the protection and
    mapping flags the region was created with. *)
Record mmap : Type := mk_mmap {
  data : list Z;
  size : Z;
  pos : Z;
  prot : Z;
  flags : Z;
  closed : bool
}.

Definition has_flag (bits flag : Z) : bool := negb (Z.land bits flag =? 0).

(** [mmap.mmap(-1, length, prot=..., flags=...)]: an anonymous mapping is
    zero-filled and the position starts at 0. *)
Definition mmap_new (fileno length prot flags : Z) : result mmap :=
  if length <? 0 then
    Raise (OverflowError "memory mapped length must be positive")
  else if length =? 0 then Raise (OSError "Invalid argument")
  else if negb (fileno =? -1) then Raise (OSError "Bad file descriptor")
  else Ok (mk_mmap (repeat 0 (Z.to_nat length)) length 0 prot flags false).

(** [mem.write(bytes)]: copies at the position and advances it; a write
    that does not fit between the position and the end is refused. *)
Definition mmap_write (m : mmap) (bytes : list Z) : result mmap :=
  if closed m then Raise (ValueError "mmap closed or invalid")
  else if negb (has_flag (prot m) PROT_WRITE) then
    Raise (TypeError "mmap can't modify a readonly memory map.")
  else if (size m <? pos m) || (size m - pos m <? len bytes) then
    Raise (ValueError "data out of range")
  else
    Ok (mk_mmap
          (firstn (Z.to_nat (pos m)) (data m) ++ bytes
             ++ skipn (Z.to_nat (pos m + len bytes)) (data m))
          (size m) (pos m + len bytes) (prot m) (flags m) (closed m)).

(** [mem.seek(target)], from the start of the region. *)
Definition mmap_seek (m : mmap) (target : Z) : result mmap :=
  if closed m then Raise (ValueError "mmap closed or invalid")
  else if (target <? 0) || (size m <? target) then
    Raise (ValueError "seek out of range")
  else Ok (mk_mmap (data m) (size m) target (prot m) (flags m) (closed m)).

(** [mem.read(n)]: at most [n] bytes from the position, which advances. *)
Definition mmap_read (m : mmap) (n : Z) : result (mmap * list Z) :=
  if closed m then Raise (ValueError "mmap closed or invalid")
  else
    let remaining := if pos m <? size m then size m - pos m else 0 in
    let k := if (n <? 0) || (remaining <? n) then remaining else n in
    Ok (mk_mmap (data m) (size m) (pos m + k) (prot m) (flags m) (closed m),
        firstn (Z.to_nat k) (skipn (Z.to_nat (pos m)) (data m))).

(** [mem.close()]. *)
Definition mmap_close (m : mmap) : mmap :=
  mk_mmap [] (size m) (pos m) (prot m) (flags m) true.

End Py.

Import Py.

Notation "x <- c ;; k" := (Py.bind c (fun x => k))
  (at level 61, c at next level, right associativity).
Notation "' pat <- c ;; k" := (Py.bind c (fun x => match x with pat => k end))
  (at level 61, pat pattern, c at next level, right associativity).

(** ** The x86-64 instructions of the emitted routines

    Only the 32-bit operand forms with register-direct operands occur
    (ModRM.mod = 3).  A 32-bit register is a [Z] in [0, 2^32); the upper
    halves of the 64-bit registers, the stack and the parity and auxiliary
    flags are never read by these instructions and are left out.  The
    arithmetic and flag results follow the Intel SDM (vol. 2). *)

Module X86.

Inductive reg : Type := EAX | ECX | EDX | EBX | ESP | EBP | ESI | EDI.

(** The register numbered by a 3-bit ModRM or opcode field. *)
Definition reg_of (k : Z) : reg :=
  match k with
  | 0 => EAX | 1 => ECX | 2 => EDX | 3 => EBX
  | 4 => ESP | 5 => EBP | 6 => ESI | _ => EDI
  end.

Record regfile : Type := mk_regs {
  eax : Z; ecx : Z; edx : Z; ebx : Z; esp : Z; ebp : Z; esi : Z; edi : Z
}.

Record eflags : Type := mk_flags { ZF : bool; SF : bool; OF : bool; CF : bool }.

Record state : Type := mk_state { regs : regfile; fl : eflags; pc : Z }.

Definition get (r : reg) (f : regfile) : Z :=
  match r with
  | EAX => eax f | ECX => ecx f | EDX => edx f | EBX => ebx f
  | ESP => esp f | EBP => ebp f | ESI => esi f | EDI => edi f
  end.

Definition set (r : reg) (v : Z) (f : regfile) : regfile :=
  match r with
  | EAX => mk_regs v (ecx f) (edx f) (ebx f) (esp f) (ebp f) (esi f) (edi f)
  | ECX => mk_regs (eax f) v (edx f) (ebx f) (esp f) (ebp f) (esi f) (edi f)
  | EDX => mk_regs (eax f) (ecx f) v (ebx f) (esp f) (ebp f) (esi f) (edi f)
  | EBX => mk_regs (eax f) (ecx f) (edx f) v (esp f) (ebp f) (esi f) (edi f)
  | ESP => mk_regs (eax f) (ecx f) (edx f) (ebx f) v (ebp f) (esi f) (edi f)
  | EBP => mk_regs (eax f) (ecx f) (edx f) (ebx f) (esp f) v (esi f) (edi f)
  | ESI => mk_regs (eax f) (ecx f) (edx f) (ebx f) (esp f) (ebp f) v (edi f)
  | EDI => mk_regs (eax f) (ecx f) (edx f) (ebx f) (esp f) (ebp f) (esi f) v
  end.

(** *** 32-bit arithmetic *)

Definition wrap32 (x : Z) : Z := x mod 4294967296.

(** The sign bit (bit 31) of a 32-bit value. *)
Definition msb32 (x : Z) : bool := 2147483648 <=? x.

(** A 32-bit value read as a two's-complement signed integer. *)
Definition signed32 (x : Z) : Z := if msb32 x then x - 4294967296 else x.

(** A byte read as a two's-complement signed integer. *)
Definition sext8 (b : Z) : Z := if 128 <=? b then b - 256 else b.

Definition flags_sub (a b : Z) : eflags :=
  let r := wrap32 (a - b) in
  mk_flags (r =? 0) (msb32 r)
           (negb (eqb (msb32 a) (msb32 b)) && negb (eqb (msb32 r) (msb32 a)))
           (a <? b).

Definition flags_add (a b : Z) : eflags :=
  let r := wrap32 (a + b) in
  mk_flags (r =? 0) (msb32 r)
           (eqb (msb32 a) (msb32 b) && negb (eqb (msb32 r) (msb32 a)))
           (4294967296 <=? a + b).

(** [inc] sets the flags of an addition of 1 but leaves CF alone. *)
Definition flags_inc (a : Z) (old : eflags) : eflags :=
  let f := flags_add a 1 in mk_flags (ZF f) (SF f) (OF f) (CF old).

Definition flags_logic (r : Z) : eflags :=
  mk_flags (r =? 0) (msb32 r) false false.

(** Two-operand [imul]: CF and OF tell whether the signed product was
    truncated; ZF and SF, which the manual leaves undefined, are taken from
    the result. *)
Definition flags_imul (a b : Z) : eflags :=
  let p := signed32 a * signed32 b in
  let r := wrap32 p in
  let t := negb (signed32 r =? p) in
  mk_flags (r =? 0) (msb32 r) t t.

(** The condition of [jle]: ZF = 1 or SF <> OF. *)
Definition cond_le (f : eflags) : bool := ZF f || negb (eqb (SF f) (OF f)).

(** *** Decoding *)

Inductive instr : Type :=
| CMP_r_imm8 (r : reg) (imm : Z)
| CMP_rr (rm r : reg)
| JLE (rel : Z)
| XOR_rr (rm r : reg)
| MOV_r_imm32 (r : reg) (imm : Z)
| MOV_rr (rm r : reg)
| ADD_rr (rm r : reg)
| INC_r (rm : reg)
| IMUL_rr (r rm : reg)
| RET.

Definition fetch (mem : list Z) (a : Z) : option Z :=
  if a <? 0 then None else nth_error mem (Z.to_nat a).

(** A little-endian 32-bit immediate. *)
Definition fetch32 (mem : list Z) (a : Z) : option Z :=
  match fetch mem a, fetch mem (a + 1), fetch mem (a + 2), fetch mem (a + 3) with
  | Some b0, Some b1, Some b2, Some b3 =>
      Some (b0 + 256 * b1 + 65536 * b2 + 16777216 * b3)
  | _, _, _, _ => None
  end.

Definition modrm_mod (m : Z) : Z := m / 64.
Definition modrm_reg (m : Z) : Z := (m / 8) mod 8.
Definition modrm_rm (m : Z) : Z := m mod 8.

(** A ModRM byte with two register operands: [(rm, reg)]. *)
Definition modrm_rr (mem : list Z) (a : Z) : option (reg * Z) :=
  match fetch mem a with
  | Some m =>
      if modrm_mod m =? 3 then Some (reg_of (modrm_rm m), modrm_reg m) else None
  | None => None
  end.

(** The instruction at [a] and its length in bytes. *)
Definition decode (mem : list Z) (a : Z) : option (instr * Z) :=
  match fetch mem a with
  | None => None
  | Some op =>
      if op =? 195 then Some (RET, 1)
      else if op =? 126 then
        match fetch mem (a + 1) with
        | Some d => Some (JLE (sext8 d), 2)
        | None => None
        end
      else if (184 <=? op) && (op <=? 191) then
        match fetch32 mem (a + 1) with
        | Some imm => Some (MOV_r_imm32 (reg_of (op - 184)) imm, 5)
        | None => None
        end
      else if op =? 131 then
        match modrm_rr mem (a + 1), fetch mem (a + 2) with
        | Some (rm, 7), Some ib => Some (CMP_r_imm8 rm (wrap32 (sext8 ib)), 3)
        | _, _ => None
        end
      else if op =? 255 then
        match modrm_rr mem (a + 1) with
        | Some (rm, 0) => Some (INC_r rm, 2)
        | _ => None
        end
      else if op =? 15 then
        match fetch mem (a + 1), modrm_rr mem (a + 2) with
        | Some 175, Some (rm, r) => Some (IMUL_rr (reg_of r) rm, 3)
        | _, _ => None
        end
      else
        match modrm_rr mem (a + 1) with
        | Some (rm, r) =>
            if op =? 49 then Some (XOR_rr rm (reg_of r), 2)
            else if op =? 137 then Some (MOV_rr rm (reg_of r), 2)
            else if op =? 1 then Some (ADD_rr rm (reg_of r), 2)
            else if op =? 57 then Some (CMP_rr rm (reg_of r), 2)
            else None
        | None => None
        end
  end.

(** *** Execution *)

Inductive step_result : Type :=
| Next (s : state)
| Return_ (v : Z).

(** One instruction of length [n] executed in state [s].  [ret] leaves the
    routine with the contents of [eax]. *)
Definition exec (i : instr) (n : Z) (s : state) : step_result :=
  let f := regs s in
  let next := pc s + n in
  match i with
  | CMP_r_imm8 r imm => Next (mk_state f (flags_sub (get r f) imm) next)
  | CMP_rr rm r => Next (mk_state f (flags_sub (get rm f) (get r f)) next)
  | JLE rel => Next (mk_state f (fl s) (if cond_le (fl s) then next + rel else next))
  | XOR_rr rm r =>
      let v := Z.lxor (get rm f) (get r f) in
      Next (mk_state (set rm v f) (flags_logic v) next)
  | MOV_r_imm32 r imm => Next (mk_state (set r imm f) (fl s) next)
  | MOV_rr rm r => Next (mk_state (set rm (get r f) f) (fl s) next)
  | ADD_rr rm r =>
      let a := get rm f in
      let b := get r f in
      Next (mk_state (set rm (wrap32 (a + b)) f) (flags_add a b) next)
  | INC_r rm =>
      let a := get rm f in
      Next (mk_state (set rm (wrap32 (a + 1)) f) (flags_inc a (fl s)) next)
  | IMUL_rr r rm =>
      let a := get r f in
      let b := get rm f in
      Next (mk_state (set r (wrap32 (signed32 a * signed32 b)) f)
                     (flags_imul a b) next)
  | RET => Return_ (eax f)
  end.

Inductive outcome : Type :=
| Returned (v : Z)
| Fault
| OutOfFuel.

(** At most [fuel] instructions from state [s]; a byte sequence that is not
    one of the instructions above, or a fetch outside the region, faults. *)
Fixpoint run (fuel : nat) (mem : list Z) (s : state) : outcome :=
  match fuel with
  | O => OutOfFuel
  | S fuel' =>
      match decode mem (pc s) with
      | None => Fault
      | Some (i, n) =>
          match exec i n s with
          | Next s' => run fuel' mem s'
          | Return_ v => Returned v
          end
      end
  end.

End X86.

(** ** Calling a region through ctypes *)

Module Ctypes.

Inductive ctype : Type := c_int | c_uint32.

(** [CFUNCTYPE(restype, *argtypes)(address)]: the entry point is an offset
    from the base of the region the address was taken from. *)
Record cfunc : Type := CFUNCTYPE {
  restype : ctype;
  argtypes : list ctype;
  entry : Z
}.

(** An integer argument keeps its low 32 bits. *)
Definition to_c (t : ctype) (v : Z) : Z := X86.wrap32 v.

(** The return register read back as the result type. *)
Definition of_c (t : ctype) (v : Z) : Z :=
  match t with
  | c_int => X86.signed32 (X86.wrap32 v)
  | c_uint32 => X86.wrap32 v
  end.

(** System V AMD64: integer arguments go to edi, esi, edx, ecx in order
    (the two further argument registers are not used by any routine here). *)
Fixpoint load_args (rs : list X86.reg) (args : list Z) (f : X86.regfile)
  : X86.regfile :=
  match rs, args with
  | r :: rs', v :: args' => load_args rs' args' (X86.set r v f)
  | _, _ => f
  end.

(** A call of [fn] on the current contents of region [m].  [caller] is what
    the registers and flags hold when control arrives; [fuel] bounds the
    number of instructions followed. *)
Definition call (fuel : nat) (caller : X86.state) (fn : cfunc) (m : mmap)
    (args : list Z) : result Z :=
  if negb (len args =? len (argtypes fn)) then
    Raise (TypeError "wrong number of arguments")
  else if closed m || negb (has_flag (prot m) PROT_EXEC) then
    Raise (Crash "segmentation fault")
  else
    let f := load_args [X86.EDI; X86.ESI; X86.EDX; X86.ECX]
               (map (fun '(t, v) => to_c t v) (combine (argtypes fn) args))
               (X86.regs caller) in
    match X86.run fuel (data m) (X86.mk_state f (X86.fl caller) (entry fn)) with
    | X86.Returned v => Ok (of_c (restype fn) v)
    | X86.Fault => Raise (Crash "fault in generated code")
    | X86.OutOfFuel => Raise (Crash "step budget exhausted")
    end.

End Ctypes.

Import Ctypes.

(** ** jit_fibonacci.py *)

Module JitFibonacci.

(** The script's variables after the routine has been assembled. *)
Record assembled : Type := mk_assembled {
  fibonacci_code : list Z;
  jle_patch_pos : Z;
  loop_start : Z;
  loop_end : Z;
  offset_to_loop : Z;
  return_n_pos : Z;
  jle_target_offset : Z
}.

(** Lines 63-65: the backward [jle loop_start], emitted at the end of
    [code]. *)
Definition emit_jle_loop (code : list Z) (loop_start : Z)
  : result (list Z * Z * Z) :=
  let loop_end := len code in
  let offset_to_loop := loop_start - (loop_end + 2) in
  code <- bytearray_extend code [0x7e; Z.land offset_to_loop 0xff] ;;
  Ok (code, loop_end, offset_to_loop).

(** Lines 83-84: the forward [jle return_n], patched into its placeholder. *)
Definition patch_jle (code : list Z) (jle_patch_pos return_n_pos : Z)
  : result (list Z * Z) :=
  let jle_target_offset := return_n_pos - (jle_patch_pos + 1) in
  code <- bytearray_setitem code jle_patch_pos (Z.land jle_target_offset 0xff) ;;
  Ok (code, jle_target_offset).

(** Lines 22-86. *)
Definition assemble : result assembled :=
  let code := [] in
  (* cmp edi, 1 *)
  code <- bytearray_extend code [0x83; 0xff; 0x01] ;;
  (* jle return_n, placeholder *)
  code <- bytearray_extend code [0x7e; 0x00] ;;
  let jle_patch_pos := len code - 1 in
  (* xor eax, eax *)
  code <- bytearray_extend code [0x31; 0xc0] ;;
  (* mov edx, 1 *)
  code <- bytearray_extend code [0xba; 0x01; 0x00; 0x00; 0x00] ;;
  (* mov ecx, 2 *)
  code <- bytearray_extend code [0xb9; 0x02; 0x00; 0x00; 0x00] ;;
  let loop_start := len code in
  (* mov esi, edx *)
  code <- bytearray_extend code [0x89; 0xd6] ;;
  (* add esi, eax *)
  code <- bytearray_extend code [0x01; 0xc6] ;;
  (* mov eax, edx *)
  code <- bytearray_extend code [0x89; 0xd0] ;;
  (* mov edx, esi *)
  code <- bytearray_extend code [0x89; 0xf2] ;;
  (* inc ecx *)
  code <- bytearray_extend code [0xff; 0xc1] ;;
  (* cmp ecx, edi *)
  code <- bytearray_extend code [0x39; 0xf9] ;;
  (* jle loop_start *)
  '(code, loop_end, offset_to_loop) <- emit_jle_loop code loop_start ;;
  (* mov eax, edx *)
  code <- bytearray_extend code [0x89; 0xd0] ;;
  (* ret *)
  code <- bytearray_extend code [0xc3] ;;
  let return_n_pos := len code in
  (* mov eax, edi *)
  code <- bytearray_extend code [0x89; 0xf8] ;;
  (* ret *)
  code <- bytearray_extend code [0xc3] ;;
  '(code, jle_target_offset) <- patch_jle code jle_patch_pos return_n_pos ;;
  Ok (mk_assembled code jle_patch_pos loop_start loop_end offset_to_loop
                   return_n_pos jle_target_offset).

(** Lines 120-122: the region. *)
Definition mem : result mmap :=
  mmap_new (-1) 4096
    (Z.lor (Z.lor PROT_READ PROT_WRITE) PROT_EXEC)
    (Z.lor MAP_PRIVATE MAP_ANONYMOUS).

(** Line 124: the routine copied into the region. *)
Definition loaded : result mmap :=
  asm <- assemble ;;
  mem <- mem ;;
  mmap_write mem (fibonacci_code asm).

(** Lines 125-129: the region's base address as [int f(int)]. *)
Definition FUNC_TYPE (mem_addr : Z) : cfunc := CFUNCTYPE c_int [c_int] mem_addr.

Definition fib_jit (fuel : nat) (caller : X86.state) (n : Z) : result Z :=
  mem <- loaded ;;
  call fuel caller (FUNC_TYPE 0) mem [n].

(** Lines 132-138. *)
Definition fib_python (n : Z) : Z :=
  if n <=? 1 then n
  else
    snd (fold_left (fun '(a, b) _ => (b, a + b)) (range 2 (n + 1)) (0, 1)).

(** Lines 143-150: the comparison over [range(20)]. *)
Definition all_match (fuel : nat) (caller : X86.state) : result bool :=
  fold_left
    (fun acc n =>
       all_match <- acc ;;
       jit_result <- fib_jit fuel caller n ;;
       let py_result := fib_python n in
       Ok (if negb (jit_result =? py_result) then false else all_match))
    (range 0 20) (Ok true).

End JitFibonacci.

(** ** self_modify.py, parts 4 to 6 *)

Module SelfModify.

(** The protection and flags every region of the scripts is created with:
    [PROT_READ | PROT_WRITE | PROT_EXEC] and [MAP_PRIVATE | MAP_ANONYMOUS]. *)
Definition RWX : Z := Z.lor (Z.lor PROT_READ PROT_WRITE) PROT_EXEC.
Definition PRIVATE_ANON : Z := Z.lor MAP_PRIVATE MAP_ANONYMOUS.

(** Lines 175-177 (and 244-246, 343-345): a region of [mem_size] bytes. *)
Definition exec_mem (mem_size : Z) : result mmap :=
  mmap_new (-1) mem_size RWX PRIVATE_ANON.

(** Lines 157-166. *)
Definition shellcode_return_42 : list Z := [0xb8; 0x2a; 0x00; 0x00; 0x00; 0xc3].
Definition shellcode_return_1337 : list Z := [0xb8; 0x39; 0x05; 0x00; 0x00; 0xc3].

(** Lines 172-221: one function pointer, called before and after the region
    is overwritten; the pair [(result1, result2)]. *)
Definition part4 (fuel : nat) (caller : X86.state) : result (Z * Z) :=
  let mem_size := 4096 in
  exec_mem <- exec_mem mem_size ;;
  exec_mem <- mmap_write exec_mem shellcode_return_42 ;;
  exec_mem <- mmap_seek exec_mem 0 ;;
  let func := CFUNCTYPE c_int [] 0 in
  result1 <- call fuel caller func exec_mem [] ;;
  exec_mem <- mmap_seek exec_mem 0 ;;
  exec_mem <- mmap_write exec_mem shellcode_return_1337 ;;
  exec_mem <- mmap_seek exec_mem 0 ;;
  result2 <- call fuel caller func exec_mem [] ;;
  Ok (result1, result2).

(** Lines 239-242: [mov eax, 0; ret]. *)
Definition base_code : list Z := [0xb8; 0x00; 0x00; 0x00; 0x00; 0xc3].

Definition dynamic_func : cfunc := CFUNCTYPE c_int [] 0.

(** Lines 260-269: one iteration of the loop, on the region and the list of
    results so far. *)
Definition iteration (fuel : nat) (caller : X86.state)
    (st : mmap * list Z) (i : Z) : result (mmap * list Z) :=
  let '(exec_mem2, results) := st in
  result <- call fuel caller dynamic_func exec_mem2 [] ;;
  let results := results ++ [result] in
  let new_value := (i + 1) * 100 in
  new_bytes <- struct_pack_I new_value ;;
  exec_mem2 <- mmap_seek exec_mem2 1 ;;
  exec_mem2 <- mmap_write exec_mem2 new_bytes ;;
  Ok (exec_mem2, results).

(** Lines 244-277: [results + [final_result]]. *)
Definition part5 (fuel : nat) (caller : X86.state) : result (list Z) :=
  exec_mem2 <- exec_mem 4096 ;;
  exec_mem2 <- mmap_write exec_mem2 base_code ;;
  '(exec_mem2, results) <-
    fold_left (fun acc i => st <- acc ;; iteration fuel caller st i)
              (range 0 10) (Ok (exec_mem2, [])) ;;
  final_result <- call fuel caller dynamic_func exec_mem2 [] ;;
  Ok (results ++ [final_result]).

(** Lines 300-333. *)
Definition jit_compile_add_mul (a_val b_val c_val : Z) : result (list Z) :=
  let code := [] in
  (* mov eax, a_val *)
  code <- bytearray_extend code [0xb8] ;;
  imm <- struct_pack_I (Z.land a_val 0xFFFFFFFF) ;;
  code <- bytearray_extend code imm ;;
  (* mov ecx, b_val *)
  code <- bytearray_extend code [0xb9] ;;
  imm <- struct_pack_I (Z.land b_val 0xFFFFFFFF) ;;
  code <- bytearray_extend code imm ;;
  (* mov edx, c_val *)
  code <- bytearray_extend code [0xba] ;;
  imm <- struct_pack_I (Z.land c_val 0xFFFFFFFF) ;;
  code <- bytearray_extend code imm ;;
  (* imul ecx, edx *)
  code <- bytearray_extend code [0x0f; 0xaf; 0xca] ;;
  (* add eax, ecx *)
  code <- bytearray_extend code [0x01; 0xc8] ;;
  (* ret *)
  code <- bytearray_extend code [0xc3] ;;
  Ok code.

(** Lines 336-341. *)
Definition test_cases : list (Z * Z * Z) :=
  [(1, 2, 3); (10, 5, 4); (100, 0, 999); (0, 7, 8)].

(** Lines 355-365: one expression compiled into the region and called; the
    region afterwards and the result. *)
Definition jit_run (fuel : nat) (caller : X86.state) (exec_mem3 : mmap)
    (a b c : Z) : result (mmap * Z) :=
  machine_code <- jit_compile_add_mul a b c ;;
  exec_mem3 <- mmap_seek exec_mem3 0 ;;
  exec_mem3 <- mmap_write exec_mem3 machine_code ;;
  let jit_func := CFUNCTYPE c_int [] 0 in
  result <- call fuel caller jit_func exec_mem3 [] ;;
  Ok (exec_mem3, result).

(** Lines 343-373: [all_passed] over the test cases. *)
Definition part6 (fuel : nat) (caller : X86.state) : result bool :=
  exec_mem3 <- exec_mem 4096 ;;
  '(_, all_passed) <-
    fold_left
      (fun acc '(a, b, c) =>
         '(exec_mem3, all_passed) <- acc ;;
         '(exec_mem3, result) <- jit_run fuel caller exec_mem3 a b c ;;
         let expected := a + b * c in
         Ok (exec_mem3, if negb (result =? expected) then false else all_passed))
      test_cases (Ok (exec_mem3, true)) ;;
  Ok all_passed.

End SelfModify.

(** ** validate_mmap.py *)

Module ValidateMmap.

(** Line 20: [mov eax, 0xDEADBEEF; ret]. *)
Definition code : list Z := [0xb8; 0xef; 0xbe; 0xad; 0xde; 0xc3].

(** Lines 15-17: the region. *)
Definition mem : result mmap :=
  mmap_new (-1) 4096 SelfModify.RWX SelfModify.PRIVATE_ANON.

(** Lines 21-25 for an arbitrary byte string in place of [code]: the region
    after the read and the bytes read back. *)
Definition write_then_read (code : list Z) : result (mmap * list Z) :=
  mem <- mem ;;
  mem <- mmap_write mem code ;;
  mem <- mmap_seek mem 0 ;;
  mmap_read mem (len code).

(** Lines 15-33: [(code == read_back, result)]. *)
Definition validate (fuel : nat) (caller : X86.state) : result (bool * Z) :=
  '(mem, read_back) <- write_then_read code ;;
  let func := CFUNCTYPE c_uint32 [] 0 in
  result <- call fuel caller func mem [] ;;
  Ok (if list_eq_dec Z.eq_dec code read_back then true else false, result).

End ValidateMmap.

(** ** image_executor_v2.py *)

Module ImageExecutor.

(** Lines 159-168 of [execute_code]: a region exactly as long as the code,
    and the code copied into it. *)
Definition load (code_bytes : list Z) : result mmap :=
  let code_size := len code_bytes in
  mem <- SelfModify.exec_mem code_size ;;
  mem <- mmap_write mem code_bytes ;;
  mmap_seek mem 0.

End ImageExecutor.

(** ** Regions in use *)

(** A live region: open, holding as many bytes as its size, with its position
    inside. *)
Definition mmap_wf (m : mmap) : Prop :=
  closed m = false /\ len (data m) = size m /\ 0 <= pos m <= size m.

(** ** jit_fibonacci.py: the byte-by-byte breakdown *)

Module FibonacciReport.

(** [str(z)], as an f-string formats an integer. *)
Definition str (z : Z) : string := NilZero.string_of_int (Z.to_int z).

(** [l[a:b]] for [0 <= a <= b]. *)
Definition slice {A : Type} (l : list A) (a b : Z) : list A :=
  firstn (Z.to_nat (b - a)) (skipn (Z.to_nat a) l).

(** Lines 96-113: the size and meaning of each instruction. *)
Definition annotations (jle_target_offset : Z) : list (Z * string) :=
  [(3, "cmp edi, 1");
   (2, String.append "jle +"
         (String.append (str jle_target_offset) " (to return_n)"));
   (2, "xor eax, eax (a=0)");
   (5, "mov edx, 1 (b=1)");
   (5, "mov ecx, 2 (i=2)");
   (2, "mov esi, edx");
   (2, "add esi, eax");
   (2, "mov eax, edx (a=b)");
   (2, "mov edx, esi (b=temp)");
   (2, "inc ecx");
   (2, "cmp ecx, edi");
   (2, "jle loop");
   (2, "mov eax, edx (return b)");
   (1, "ret");
   (2, "mov eax, edi (return n)");
   (1, "ret")]%string.

(** Lines 95 and 114-117: the rows printed, each an offset, the bytes found
    there and their meaning, and the offset reached at the end. *)
Definition breakdown (fibonacci_code : list Z) (annotations : list (Z * string))
  : Z * list (Z * list Z * string) :=
  fold_left
    (fun '(idx, rows) '(size, desc) =>
       let chunk := slice fibonacci_code idx (idx + size) in
       (idx + size, rows ++ [(idx, chunk, desc)]))
    annotations (0, []).

End FibonacciReport.

(** ** image_executor_v2.py: machine code carried by an image *)

Module ImageCodec.

(** [a % b] and [a // b] on Python integers; division by zero raises
    ZeroDivisionError, carried here by [Crash]. *)
Definition py_mod (a b : Z) : result Z :=
  if b =? 0 then Raise (Crash "ZeroDivisionError: integer modulo by zero")
  else Ok (a mod b).

Definition py_floordiv (a b : Z) : result Z :=
  if b =? 0 then Raise (Crash "ZeroDivisionError: integer division by zero")
  else Ok (a / b).

(** [enumerate(l)], counting from [i]. *)
Fixpoint enumerate {A : Type} (i : Z) (l : list A) : list (Z * A) :=
  match l with
  | [] => []
  | x :: l' => (i, x) :: enumerate (i + 1) l'
  end.

Definition pixel : Type := (Z * Z * Z)%type.

(** A PIL image of mode RGB: its size and its pixels, row after row. *)
Record image : Type := mk_image { width : Z; height : Z; px : list pixel }.

(** A band value as PIL stores it: clipped to a byte. *)
Definition clip8 (v : Z) : Z :=
  if v <? 0 then 0 else if 255 <? v then 255 else v.

Definition clip_pixel (p : pixel) : pixel :=
  let '(r, g, b) := p in (clip8 r, clip8 g, clip8 b).

(** [Image.new('RGB', (w, h), color)]. *)
Definition Image_new (w h : Z) (color : pixel) : result image :=
  if (w <? 0) || (h <? 0) then
    Raise (ValueError "Width and height must be >= 0")
  else Ok (mk_image w h (repeat (clip_pixel color) (Z.to_nat (w * h)))).

(** The place of pixel [(x, y)] in the rows; negative coordinates count from
    the far edge and a coordinate outside the image is refused. *)
Definition locate (img : image) (x y : Z) : result Z :=
  let x := if x <? 0 then width img + x else x in
  let y := if y <? 0 then height img + y else y in
  if (x <? 0) || (width img <=? x) || (y <? 0) || (height img <=? y) then
    Raise (IndexError "image index out of range")
  else Ok (y * width img + x).

(** [pixels[x, y]]. *)
Definition getitem (img : image) (x y : Z) : result pixel :=
  k <- locate img x y ;;
  match nth_error (px img) (Z.to_nat k) with
  | Some p => Ok p
  | None => Raise (IndexError "image index out of range")
  end.

(** [pixels[x, y] = p]. *)
Definition setitem (img : image) (x y : Z) (p : pixel) : result image :=
  k <- locate img x y ;;
  Ok (mk_image (width img) (height img)
               (firstn (Z.to_nat k) (px img) ++ clip_pixel p
                  :: skipn (Z.to_nat (k + 1)) (px img))).

(** Lines 23-49. *)
Definition create_hello_world_shellcode : list Z :=
  [0x48; 0xc7; 0xc0; 0x01; 0x00; 0x00; 0x00;
   0x48; 0xc7; 0xc7; 0x01; 0x00; 0x00; 0x00;
   0x48; 0x8d; 0x35; 0x0a; 0x00; 0x00; 0x00;
   0x48; 0xc7; 0xc2; 0x12; 0x00; 0x00; 0x00;
   0x0f; 0x05;
   0xc3;
   0x48; 0x65; 0x6c; 0x6c; 0x6f; 0x20; 0x66; 0x72;
   0x6f; 0x6d; 0x20; 0x69; 0x6d; 0x61; 0x67; 0x65;
   0x21; 0x0a].

(** Lines 83-87: the body of the encoding loop. *)
Definition put_byte (width : Z) (img : image) (ib : Z * Z) : result image :=
  let '(i, byte) := ib in
  x <- py_mod i width ;;
  y <- py_floordiv i width ;;
  setitem img x y (byte, 255, 0).

(** Lines 67-95 of [encode_code_to_image], from the width on.  Line 71
    computes the width, [int(code_length ** 0.5) + 1], in floating point; it
    is taken here as given.  The image written to [output_path] is returned
    beside [(width, height, code_length)]. *)
Definition encode_with_width (code_bytes : list Z) (width : Z)
  : result (image * (Z * Z * Z)) :=
  let code_length := len code_bytes in
  q <- py_floordiv code_length width ;;
  let height := q + 1 in
  img <- Image_new width height (0, 0, 0) ;;
  img <- fold_left (fun acc ib => img <- acc ;; put_byte width img ib)
                   (enumerate 0 code_bytes) (Ok img) ;;
  Ok (img, (width, height, code_length)).

(** Lines 117-123: the body of the decoding loop. *)
Definition take_byte (img : image) (code_bytes : list Z) (i : Z)
  : result (list Z) :=
  let width := width img in
  x <- py_mod i width ;;
  y <- py_floordiv i width ;;
  ' (r, g, b) <- getitem img x y ;;
  if g =? 255 then bytearray_extend code_bytes [r] else Ok code_bytes.

(** Lines 107-125 of [decode_code_from_image], on the image read from
    [image_path]. *)
Definition decode_code_from_image (img : image) (code_length : Z)
  : result (list Z) :=
  fold_left (fun acc i => code_bytes <- acc ;; take_byte img code_bytes i)
            (range 0 code_length) (Ok []).

(** Lines 240-262 of [main] for any code and width: encode, decode, compare,
    and load into executable memory only what came back unchanged. *)
Definition encode_decode_load (shellcode : list Z) (width : Z)
  : result (option mmap) :=
  ' (img, (_, _, code_length)) <- encode_with_width shellcode width ;;
  extracted_code <- decode_code_from_image img code_length ;;
  if list_eq_dec Z.eq_dec extracted_code shellcode then
    mem <- ImageExecutor.load extracted_code ;; Ok (Some mem)
  else Ok None.

End ImageCodec.

(** ** The 64-bit instructions and the system call of the image's shellcode

    The shellcode of image_executor_v2.py uses three instruction forms that
    the routines above do not: [mov r64, imm32] (REX.W C7 /0, the immediate
    sign-extended), [lea r64, [rip + disp32]] (REX.W 8D /r) and [syscall]
    (0F 05).  Registers are 64-bit values by number (0 rax, 1 rcx, 2 rdx,
    6 rsi, 7 rdi).  The region is mapped at address [base]; of Linux only
    [write] (system call 1) is modelled, and a write to a descriptor is taken
    to succeed in full. *)

Module X64.

Definition wrap64 (x : Z) : Z := x mod 18446744073709551616.

(** A 32-bit value read as a two's-complement signed integer. *)
Definition sext32 (x : Z) : Z := if 2147483648 <=? x then x - 4294967296 else x.

Definition regfile : Type := Z -> Z.

Definition set (r v : Z) (f : regfile) : regfile :=
  fun k => if k =? r then v else f k.

(** Registers, offset of the next instruction from [base], and what has been
    written so far: descriptor and bytes of each [write]. *)
Record state : Type := mk_state {
  regs : regfile;
  pc : Z;
  out : list (Z * list Z)
}.

Inductive instr : Type :=
| MOV_r64_imm32 (r imm : Z)
| LEA_r64_rip (r disp : Z)
| SYSCALL
| RET.

(** The instruction at offset [a] and its length in bytes. *)
Definition decode (mem : list Z) (a : Z) : option (instr * Z) :=
  match X86.fetch mem a with
  | Some 195 => Some (RET, 1)
  | Some 15 =>
      match X86.fetch mem (a + 1) with
      | Some 5 => Some (SYSCALL, 2)
      | _ => None
      end
  | Some 72 =>
      match X86.fetch mem (a + 1), X86.fetch mem (a + 2),
            X86.fetch32 mem (a + 3) with
      | Some 199, Some m, Some imm =>
          if (X86.modrm_mod m =? 3) && (X86.modrm_reg m =? 0) then
            Some (MOV_r64_imm32 (X86.modrm_rm m) (sext32 imm), 7)
          else None
      | Some 141, Some m, Some disp =>
          if (X86.modrm_mod m =? 0) && (X86.modrm_rm m =? 5) then
            Some (LEA_r64_rip (X86.modrm_reg m) (sext32 disp), 7)
          else None
      | _, _, _ => None
      end
  | _ => None
  end.

(** The [count] bytes at address [addr], if they all lie in the region. *)
Definition read_bytes (base : Z) (mem : list Z) (addr count : Z)
  : option (list Z) :=
  if (base <=? addr) && (0 <=? count) && (addr + count <=? base + len mem) then
    Some (firstn (Z.to_nat count) (skipn (Z.to_nat (addr - base)) mem))
  else None.

Inductive step_result : Type :=
| Next (s : state)
| Return_ (s : state)
| Stop.

(** One instruction of length [n].  [syscall] with rax = 1 is
    [write(rdi, rsi, rdx)]: it returns the count in rax, or EFAULT (-14) when
    the buffer is not readable, and leaves the return address in rcx. *)
Definition exec (base : Z) (mem : list Z) (i : instr) (n : Z) (s : state)
  : step_result :=
  let f := regs s in
  let next := pc s + n in
  match i with
  | MOV_r64_imm32 r imm => Next (mk_state (set r (wrap64 imm) f) next (out s))
  | LEA_r64_rip r disp =>
      Next (mk_state (set r (wrap64 (base + next + disp)) f) next (out s))
  | SYSCALL =>
      if f 0 =? 1 then
        let f' := set 1 (wrap64 (base + next)) f in
        match read_bytes base mem (f 6) (f 2) with
        | Some bytes =>
            Next (mk_state (set 0 (f 2) f') next (out s ++ [(f 7, bytes)]))
        | None => Next (mk_state (set 0 (wrap64 (-14)) f') next (out s))
        end
      else Stop
  | RET => Return_ s
  end.

Inductive outcome : Type :=
| Returned (s : state)
| Fault
| OutOfFuel.

Fixpoint run (fuel : nat) (base : Z) (mem : list Z) (s : state) : outcome :=
  match fuel with
  | O => OutOfFuel
  | S fuel' =>
      match decode mem (pc s) with
      | None => Fault
      | Some (i, n) =>
          match exec base mem i n s with
          | Next s' => run fuel' base mem s'
          | Return_ s' => Returned s'
          | Stop => Fault
          end
      end
  end.

End X64.

(** Lines 157-197 of [execute_code]: the code loaded into a region mapped at
    [base] and called as [void f(void)]; what the call wrote, descriptor by
    descriptor. *)
Definition execute_code (fuel : nat) (base : Z) (caller : X64.regfile)
    (code_bytes : list Z) : result (list (Z * list Z)) :=
  mem <- ImageExecutor.load code_bytes ;;
  if closed mem || negb (has_flag (prot mem) PROT_EXEC) then
    Raise (Crash "segmentation fault")
  else
    match X64.run fuel base (data mem) (X64.mk_state caller 0 []) with
    | X64.Returned s => Ok (X64.out s)
    | X64.Fault => Raise (Crash "fault in generated code")
    | X64.OutOfFuel => Raise (Crash "step budget exhausted")
    end.

(** Lines 226-262 of [main], for any width of the image: the shellcode is
    encoded, decoded, compared with the original and, if it came back
    unchanged, executed; [None] stands for the early return. *)
Definition main (fuel : nat) (base : Z) (caller : X64.regfile) (width : Z)
  : result (option (list (Z * list Z))) :=
  let shellcode := ImageCodec.create_hello_world_shellcode in
  ' (img, (_, _, code_length)) <-
    ImageCodec.encode_with_width shellcode width ;;
  extracted_code <- ImageCodec.decode_code_from_image img code_length ;;
  if list_eq_dec Z.eq_dec extracted_code shellcode then
    written <- execute_code fuel base caller extracted_code ;;
    Ok (Some written)
  else Ok None.

(** The bytes of a string. *)
Fixpoint bytes_of_string (s : string) : list Z :=
  match s with
  | EmptyString => []
  | String c s' => Z.of_nat (Ascii.nat_of_ascii c) :: bytes_of_string s'
  end.

(** A live region, writable and executable, that holds [mov eax, imm; ret]
    at its start, followed by [rest]. *)
Definition holds_mov_ret (m : mmap) (imm : Z) (rest : list Z) : Prop :=
  mmap_wf m
  /\ has_flag (prot m) PROT_WRITE = true
  /\ has_flag (prot m) PROT_EXEC = true
  /\ data m = 0xb8 :: le_bytes imm ++ 0xc3 :: rest.

(** The 37 bytes of the Fibonacci routine as line 89 prints them, one
    instruction per line. *)
Definition fibonacci_bytes : list Z :=
  [0x83; 0xff; 0x01;               (*  0: cmp edi, 1 *)
   0x7e; 0x1d;                     (*  3: jle 34 *)
   0x31; 0xc0;                     (*  5: xor eax, eax *)
   0xba; 0x01; 0x00; 0x00; 0x00;   (*  7: mov edx, 1 *)
   0xb9; 0x02; 0x00; 0x00; 0x00;   (* 12: mov ecx, 2 *)
   0x89; 0xd6;                     (* 17: mov esi, edx *)
   0x01; 0xc6;                     (* 19: add esi, eax *)
   0x89; 0xd0;                     (* 21: mov eax, edx *)
   0x89; 0xf2;                     (* 23: mov edx, esi *)
   0xff; 0xc1;                     (* 25: inc ecx *)
   0x39; 0xf9;                     (* 27: cmp ecx, edi *)
   0x7e; 0xf2;                     (* 29: jle 17 *)
   0x89; 0xd0;                     (* 31: mov eax, edx *)
   0xc3;                           (* 33: ret *)
   0x89; 0xf8;                     (* 34: mov eax, edi *)
   0xc3].                          (* 36: ret *)

(** One turn of the Fibonacci loop on 32-bit registers: [(a, b)] becomes
    [(b, a + b)], the sum wrapping around. *)
Definition fib_step32 (ab : Z * Z) : Z * Z :=
  (snd ab, X86.wrap32 (fst ab + snd ab)).

(** The same turn on Python integers, as line 137 has it. *)
Definition fib_step (ab : Z * Z) : Z * Z := (snd ab, fst ab + snd ab).

(** * Properties *)

(** ** Bytes and two's complement *)

Lemma land_0xff (x : Z) : Z.land x 0xff = x mod 256.
Proof. exact (Z.land_ones x 8 ltac:(lia)). Qed.

Lemma land_0xFFFFFFFF (x : Z) : Z.land x 0xFFFFFFFF = X86.wrap32 x.
Proof. exact (Z.land_ones x 32 ltac:(lia)). Qed.

Lemma is_byte_mod (x : Z) : is_byte (x mod 256) = true.
Proof.
  unfold is_byte. pose proof (Z.mod_pos_bound x 256 ltac:(lia)).
  apply andb_true_iff; split; [apply Z.leb_le | apply Z.ltb_lt]; lia.
Qed.

Lemma sext8_range (b : Z) : 0 <= b < 256 -> -128 <= X86.sext8 b <= 127.
Proof. unfold X86.sext8. destruct (Z.leb_spec 128 b); lia. Qed.

(** The byte that [& 0xff] keeps of a displacement reads back, sign-extended,
    as that displacement exactly when it fits in a signed byte. *)
Lemma sext8_mask (d : Z) :
  X86.sext8 (Z.land d 0xff) = d <-> -128 <= d <= 127.
Proof.
  rewrite land_0xff.
  pose proof (Z.mod_pos_bound d 256 ltac:(lia)) as Hb.
  pose proof (Z.div_mod d 256 ltac:(lia)) as Hq.
  split.
  - intros <-. now apply sext8_range.
  - intros Hd. unfold X86.sext8.
    destruct (Z.leb_spec 128 (d mod 256)); lia.
Qed.

(** ** The mmap object *)

Section Splice.
Variables (d bytes : list Z) (p : nat).
Hypothesis fits : (p + length bytes <= length d)%nat.

Lemma splice_length :
  length (firstn p d ++ bytes ++ skipn (p + length bytes) d) = length d.
Proof.
  rewrite !length_app, length_firstn, length_skipn. lia.
Qed.

Lemma splice_read :
  firstn (length bytes) (skipn p (firstn p d ++ bytes ++ skipn (p + length bytes) d))
  = bytes.
Proof.
  assert (Hp : length (firstn p d) = p) by (rewrite length_firstn; lia).
  rewrite skipn_app, Hp, Nat.sub_diag.
  rewrite (skipn_all2 (firstn p d)) by lia.
  cbn [skipn app].
  rewrite firstn_app, Nat.sub_diag, firstn_all. cbn [firstn].
  now rewrite app_nil_r.
Qed.
End Splice.

Lemma mmap_new_ok (n prot flags : Z) :
  0 < n ->
  mmap_new (-1) n prot flags
  = Ok (mk_mmap (repeat 0 (Z.to_nat n)) n 0 prot flags false).
Proof.
  intros Hn. unfold mmap_new.
  destruct (Z.ltb_spec n 0); [lia |].
  destruct (Z.eqb_spec n 0); [lia |]. reflexivity.
Qed.

Lemma mmap_new_wf (n prot flags : Z) (m : mmap) :
  mmap_new (-1) n prot flags = Ok m -> mmap_wf m.
Proof.
  unfold mmap_new.
  destruct (Z.ltb_spec n 0); [discriminate |].
  destruct (Z.eqb_spec n 0); [discriminate |].
  cbn. intros [= <-]. unfold mmap_wf, len; cbn.
  rewrite repeat_length. repeat split; lia.
Qed.

(** A write that fits succeeds, replaces exactly the bytes at the position
    and leaves a live region of the same size. *)
Lemma mmap_write_ok (m : mmap) (bytes : list Z) :
  mmap_wf m -> has_flag (prot m) PROT_WRITE = true ->
  pos m + len bytes <= size m ->
  mmap_write m bytes
  = Ok (mk_mmap (firstn (Z.to_nat (pos m)) (data m) ++ bytes
                   ++ skipn (Z.to_nat (pos m + len bytes)) (data m))
                (size m) (pos m + len bytes) (prot m) (flags m) false).
Proof.
  intros (Hc & Hl & Hp) Hw Hfit. unfold mmap_write. rewrite Hc, Hw. cbn [negb].
  destruct (Z.ltb_spec (size m) (pos m)); [lia |].
  destruct (Z.ltb_spec (size m - pos m) (len bytes)); [lia |]. reflexivity.
Qed.

(** A write that does not fit is refused, whatever the position. *)
Lemma mmap_write_overflow (m : mmap) (bytes : list Z) :
  closed m = false -> has_flag (prot m) PROT_WRITE = true ->
  size m < pos m + len bytes ->
  mmap_write m bytes = Raise (ValueError "data out of range").
Proof.
  intros Hc Hw Hbig. unfold mmap_write. rewrite Hc, Hw. cbn [negb].
  destruct (Z.ltb_spec (size m) (pos m)); [reflexivity |].
  destruct (Z.ltb_spec (size m - pos m) (len bytes)); [reflexivity | lia].
Qed.

(** Whatever a write returns, the region keeps its size, its protection and
    exactly [size] bytes. *)
Lemma mmap_write_wf (m m' : mmap) (bytes : list Z) :
  mmap_wf m -> mmap_write m bytes = Ok m' ->
  mmap_wf m' /\ size m' = size m /\ prot m' = prot m /\ flags m' = flags m.
Proof.
  intros (Hc & Hl & Hp). unfold mmap_write. rewrite Hc.
  destruct (negb (has_flag (prot m) PROT_WRITE)); [discriminate |].
  destruct (Z.ltb_spec (size m) (pos m)); [discriminate |].
  destruct (Z.ltb_spec (size m - pos m) (len bytes)); [discriminate |].
  cbn. intros [= <-]. cbn. unfold mmap_wf; cbn. unfold len in *.
  repeat split; try assumption; try lia.
  rewrite Z2Nat.inj_add, Nat2Z.id by lia.
  rewrite splice_length; [assumption | lia].
Qed.

Lemma mmap_seek_ok (m : mmap) (target : Z) :
  closed m = false -> 0 <= target <= size m ->
  mmap_seek m target
  = Ok (mk_mmap (data m) (size m) target (prot m) (flags m) false).
Proof.
  intros Hc Ht. unfold mmap_seek. rewrite Hc.
  destruct (Z.ltb_spec target 0); [lia |].
  destruct (Z.ltb_spec (size m) target); [lia |]. reflexivity.
Qed.

(** Writing at a position and reading as many bytes from it returns them. *)
Lemma mmap_write_read (m : mmap) (bytes : list Z) :
  mmap_wf m -> has_flag (prot m) PROT_WRITE = true ->
  pos m + len bytes <= size m ->
  exists m',
    (m1 <- mmap_write m bytes ;;
     m2 <- mmap_seek m1 (pos m) ;;
     mmap_read m2 (len bytes)) = Ok (m', bytes)
    /\ mmap_wf m' /\ size m' = size m.
Proof.
  intros Hwf Hw Hfit. pose proof Hwf as (Hc & Hl & Hp).
  rewrite (mmap_write_ok _ _ Hwf Hw Hfit). cbn [bind].
  assert (Hn : 0 <= len bytes) by (unfold len; lia).
  rewrite mmap_seek_ok by (cbn; auto; lia). cbn [bind].
  unfold mmap_read. cbn [closed pos size data prot flags].
  destruct (Z.ltb_spec (pos m) (size m)) as [Hlt | Hge].
  - destruct (Z.ltb_spec (len bytes) 0); [lia |].
    destruct (Z.ltb_spec (size m - pos m) (len bytes)); [lia |]. cbn [orb].
    unfold mmap_wf, len in *; cbn.
    rewrite Z2Nat.inj_add, !Nat2Z.id by lia.
    rewrite splice_read by lia.
    eexists; split; [reflexivity |]. cbn.
    rewrite splice_length by lia. repeat split; lia.
  - assert (Hz : len bytes = 0) by lia.
    assert (bytes = []) as -> by (destruct bytes; [reflexivity | cbn in Hz; lia]).
    cbn. eexists; split; [reflexivity | split; [| reflexivity]].
    unfold mmap_wf, len in *; cbn.
    rewrite Z.add_0_r, skipn_all2 by lia. rewrite app_nil_r, firstn_all2 by lia.
    repeat split; lia.
Qed.

Lemma mmap_seek_prot (m m' : mmap) (target : Z) :
  mmap_seek m target = Ok m' -> prot m' = prot m /\ size m' = size m.
Proof.
  unfold mmap_seek. destruct (closed m); [discriminate |].
  destruct (_ || _); [discriminate |]. now intros [= <-].
Qed.

Lemma mmap_read_prot (m m' : mmap) (n : Z) (bytes : list Z) :
  mmap_read m n = Ok (m', bytes) -> prot m' = prot m /\ size m' = size m.
Proof.
  unfold mmap_read. destruct (closed m); [discriminate |]. now intros [= <- _].
Qed.

(** ** Allocation *)

(** C4, as the scripts have it: the regions of jit_fibonacci.py,
    self_modify.py and validate_mmap.py are one and the same mapping request,
    and the region it returns is writable and executable at once from the
    start. *)
Lemma C4_allocated_region_is_executable :
  exists m : mmap,
    SelfModify.exec_mem 4096 = Ok m /\ JitFibonacci.mem = Ok m
    /\ ValidateMmap.mem = Ok m
    /\ has_flag (prot m) PROT_WRITE = true
    /\ has_flag (prot m) PROT_EXEC = true.
Proof. eexists. repeat split. Qed.

(** C4 (amended): a region of [mem_size] bytes is reserved anonymous and
    process-private, zero-filled, with its position at 0, and readable,
    writable and executable at once from the moment it is allocated; no write,
    seek or read changes that protection afterwards. *)
Theorem C4_allocation_is_rwx (mem_size : Z) :
  0 < mem_size ->
  exists m : mmap,
    SelfModify.exec_mem mem_size = Ok m
    /\ size m = mem_size /\ pos m = 0 /\ closed m = false
    /\ data m = repeat 0 (Z.to_nat mem_size)
    /\ prot m = Z.lor (Z.lor PROT_READ PROT_WRITE) PROT_EXEC
    /\ has_flag (prot m) PROT_READ = true
    /\ has_flag (prot m) PROT_WRITE = true
    /\ has_flag (prot m) PROT_EXEC = true
    /\ has_flag (flags m) MAP_PRIVATE = true
    /\ has_flag (flags m) MAP_ANONYMOUS = true
    /\ (forall bytes m', mmap_write m bytes = Ok m' -> prot m' = prot m)
    /\ (forall target m', mmap_seek m target = Ok m' -> prot m' = prot m)
    /\ (forall n m' bytes, mmap_read m n = Ok (m', bytes) -> prot m' = prot m).
Proof.
  intros Hpos. unfold SelfModify.exec_mem.
  rewrite mmap_new_ok by assumption. eexists; split; [reflexivity |].
  cbn [size pos closed data prot flags].
  repeat match goal with |- _ /\ _ => split end; try reflexivity.
  - intros bytes m' H.
    eapply mmap_write_wf in H; [tauto |].
    eapply mmap_new_wf. now apply mmap_new_ok with (n := mem_size).
  - intros target m' H. now apply mmap_seek_prot in H.
  - intros n m' bytes H. now apply mmap_read_prot in H.
Qed.

Lemma C4_allocation_is_rwx_witness :
  0 < 4096 /\
  exists m : mmap,
    SelfModify.exec_mem 4096 = Ok m
    /\ size m = 4096 /\ pos m = 0 /\ closed m = false
    /\ data m = repeat 0 (Z.to_nat 4096)
    /\ prot m = Z.lor (Z.lor PROT_READ PROT_WRITE) PROT_EXEC
    /\ has_flag (prot m) PROT_READ = true
    /\ has_flag (prot m) PROT_WRITE = true
    /\ has_flag (prot m) PROT_EXEC = true
    /\ has_flag (flags m) MAP_PRIVATE = true
    /\ has_flag (flags m) MAP_ANONYMOUS = true
    /\ (forall bytes m', mmap_write m bytes = Ok m' -> prot m' = prot m)
    /\ (forall target m', mmap_seek m target = Ok m' -> prot m' = prot m)
    /\ (forall n m' bytes, mmap_read m n = Ok (m', bytes) -> prot m' = prot m).
Proof. split; [lia | apply (C4_allocation_is_rwx 4096); lia]. Defined.

(** ** Copying code into a region *)

(** C6: a byte string written into a live writable region at its position,
    and read back from that position over its whole length, comes back
    unchanged; in particular validate_mmap.py reads back exactly what it
    wrote into its fresh 4096-byte region. *)
Theorem C6_write_then_read_back (m : mmap) (code : list Z) :
  mmap_wf m -> has_flag (prot m) PROT_WRITE = true ->
  pos m + len code <= size m ->
  (exists m',
     (m1 <- mmap_write m code ;;
      m2 <- mmap_seek m1 (pos m) ;;
      mmap_read m2 (len code)) = Ok (m', code))
  /\ (len code <= 4096 ->
      exists m', ValidateMmap.write_then_read code = Ok (m', code)).
Proof.
  intros Hwf Hw Hfit. split.
  - destruct (mmap_write_read m code Hwf Hw Hfit) as (m' & H & _). eauto.
  - intros Hlen. unfold ValidateMmap.write_then_read, ValidateMmap.mem.
    rewrite mmap_new_ok by lia. cbn [bind].
    set (m0 := mk_mmap _ _ _ _ _ _).
    assert (Hwf0 : mmap_wf m0)
      by (eapply mmap_new_wf; apply mmap_new_ok with (n := 4096); lia).
    destruct (mmap_write_read m0 code Hwf0 eq_refl) as (m' & H & _);
      [cbn; lia |].
    exists m'. exact H.
Qed.

Lemma C6_write_then_read_back_witness :
  exists m',
    ValidateMmap.write_then_read ValidateMmap.code = Ok (m', ValidateMmap.code).
Proof.
  refine (proj2 (C6_write_then_read_back
                   (mk_mmap (repeat 0 16) 16 0 SelfModify.RWX
                            SelfModify.PRIVATE_ANON false)
                   ValidateMmap.code _ _ _) _).
  - repeat split; cbn; lia.
  - reflexivity.
  - cbn; lia.
  - cbn; lia.
Defined.

(** C7: a region of capacity [size m] refuses, with the bounds error
    [ValueError: data out of range], every byte string longer than its
    capacity, wherever its position stands; and a write that is accepted
    leaves exactly [size m] bytes in the region, so nothing is ever stored
    past its end.  The regions of jit_fibonacci.py (4096 bytes) and of
    image_executor_v2.py (as long as its code) are instances. *)
Theorem C7_write_longer_than_capacity (m : mmap) (code : list Z) :
  mmap_wf m -> has_flag (prot m) PROT_WRITE = true ->
  size m < len code ->
  mmap_write m code = Raise (ValueError "data out of range")
  /\ (forall bytes m',
        mmap_write m bytes = Ok m' ->
        len bytes <= size m /\ len (data m') = size m /\ size m' = size m)
  /\ (4096 < len code ->
      (mem <- JitFibonacci.mem ;; mmap_write mem code)
      = Raise (ValueError "data out of range"))
  /\ (forall code_bytes extra,
        code_bytes <> [] -> extra <> [] ->
        (exists mem, ImageExecutor.load code_bytes = Ok mem
                     /\ data mem = code_bytes)
        /\ (mem <- SelfModify.exec_mem (len code_bytes) ;;
            mmap_write mem (code_bytes ++ extra))
           = Raise (ValueError "data out of range")).
Proof.
  intros Hwf Hw Hbig. pose proof Hwf as (Hc & Hl & Hp).
  split; [| split; [| split]].
  - apply mmap_write_overflow; auto; lia.
  - intros bytes m' H.
    destruct (mmap_write_wf _ _ _ Hwf H) as ((_ & Hl' & _) & Hs & _).
    split; [| split; [congruence | assumption]].
    revert H. unfold mmap_write. rewrite Hc, Hw. cbn [negb].
    destruct (Z.ltb_spec (size m) (pos m)); [discriminate |].
    destruct (Z.ltb_spec (size m - pos m) (len bytes)); [discriminate |].
    intros _. lia.
  - intros H4096. unfold JitFibonacci.mem. rewrite mmap_new_ok by lia.
    cbn [bind]. apply mmap_write_overflow; cbn; auto; lia.
  - intros code_bytes extra Hne Hex.
    assert (Hn : 0 < len code_bytes)
      by (destruct code_bytes; [congruence | unfold len; cbn; lia]).
    assert (He : 0 < len extra)
      by (destruct extra; [congruence | unfold len; cbn; lia]).
    unfold ImageExecutor.load, SelfModify.exec_mem.
    rewrite mmap_new_ok by assumption. cbn [bind]. split.
    + set (m0 := mk_mmap _ _ _ _ _ _).
      assert (Hwf0 : mmap_wf m0)
        by (eapply mmap_new_wf; apply mmap_new_ok with (n := len code_bytes);
            assumption).
      rewrite (mmap_write_ok m0 code_bytes Hwf0 eq_refl) by (cbn; lia).
      cbn [bind]. rewrite mmap_seek_ok by (cbn; auto; lia).
      eexists; split; [reflexivity |]. cbn.
      unfold len. rewrite Nat2Z.id, skipn_all2 by (rewrite repeat_length; lia).
      apply app_nil_r.
    + apply mmap_write_overflow; cbn; auto.
      unfold len in *. rewrite length_app. lia.
Qed.

Lemma C7_write_longer_than_capacity_witness :
  mmap_write (mk_mmap [0; 0; 0; 0] 4 0 SelfModify.RWX SelfModify.PRIVATE_ANON false)
             ValidateMmap.code
  = Raise (ValueError "data out of range").
Proof.
  refine (proj1 (C7_write_longer_than_capacity
                   (mk_mmap [0; 0; 0; 0] 4 0 SelfModify.RWX
                            SelfModify.PRIVATE_ANON false)
                   ValidateMmap.code _ _ _)).
  - repeat split; cbn; lia.
  - reflexivity.
  - cbn; lia.
Defined.

(** ** Branch displacements *)

Lemma len_app {A : Type} (l l' : list A) : len (l ++ l') = len l + len l'.
Proof. unfold len. rewrite length_app. lia. Qed.

Lemma fetch_app_at (code l : list Z) (k : Z) :
  0 <= k -> X86.fetch (code ++ l) (len code + k) = nth_error l (Z.to_nat k).
Proof.
  intros Hk. unfold X86.fetch, len.
  destruct (Z.ltb_spec (Z.of_nat (length code) + k) 0); [lia |].
  rewrite nth_error_app2 by lia. f_equal. lia.
Qed.

(** The backward branch is always emitted: no displacement is refused. *)
Lemma emit_jle_loop_ok (code : list Z) (loop_start : Z) :
  JitFibonacci.emit_jle_loop code loop_start
  = Ok (code ++ [0x7e; Z.land (loop_start - (len code + 2)) 0xff],
        len code, loop_start - (len code + 2)).
Proof.
  unfold JitFibonacci.emit_jle_loop, bytearray_extend.
  cbn [forallb]. rewrite land_0xff, is_byte_mod. reflexivity.
Qed.

(** So is the forward one, whenever the placeholder exists. *)
Lemma patch_jle_ok (code : list Z) (jle_patch_pos return_n_pos : Z) :
  0 <= jle_patch_pos < len code ->
  JitFibonacci.patch_jle code jle_patch_pos return_n_pos
  = Ok (firstn (Z.to_nat jle_patch_pos) code
          ++ Z.land (return_n_pos - (jle_patch_pos + 1)) 0xff
          :: skipn (Z.to_nat (jle_patch_pos + 1)) code,
        return_n_pos - (jle_patch_pos + 1)).
Proof.
  intros Hp. unfold JitFibonacci.patch_jle, bytearray_setitem.
  rewrite land_0xff, is_byte_mod. cbn [negb]. cbv zeta.
  assert (E1 : (jle_patch_pos <? 0) = false) by (apply Z.ltb_ge; lia).
  assert (E2 : (len code <=? jle_patch_pos) = false) by (apply Z.leb_gt; lia).
  rewrite !E1, E2. reflexivity.
Qed.

(** What the processor reads at a [jle] whose displacement byte is [b]. *)
Lemma decode_jle_at_end (code : list Z) (b : Z) :
  X86.decode (code ++ [0x7e; b]) (len code) = Some (X86.JLE (X86.sext8 b), 2).
Proof.
  unfold X86.decode.
  rewrite <- (Z.add_0_r (len code)) at 1.
  rewrite fetch_app_at by lia. cbn [Z.to_nat nth_error].
  change (0x7e =? 195) with false. change (0x7e =? 126) with true. cbn iota.
  rewrite fetch_app_at by lia. reflexivity.
Qed.

Lemma decode_jle_patched (code : list Z) (p b : Z) :
  1 <= p < len code ->
  nth_error code (Z.to_nat (p - 1)) = Some 0x7e ->
  X86.decode (firstn (Z.to_nat p) code ++ b :: skipn (Z.to_nat (p + 1)) code)
             (p - 1)
  = Some (X86.JLE (X86.sext8 b), 2).
Proof.
  intros Hp Hop. unfold len in Hp.
  assert (Hlen : length (firstn (Z.to_nat p) code) = Z.to_nat p)
    by (apply firstn_length_le; lia).
  unfold X86.decode, X86.fetch.
  destruct (Z.ltb_spec (p - 1) 0); [lia |].
  rewrite nth_error_app1 by lia.
  rewrite nth_error_firstn.
  destruct (Nat.ltb_spec (Z.to_nat (p - 1)) (Z.to_nat p)); [| lia].
  rewrite Hop.
  change (0x7e =? 195) with false. change (0x7e =? 126) with true. cbn iota.
  destruct (Z.ltb_spec (p - 1 + 1) 0); [lia |].
  rewrite nth_error_app2 by lia.
  replace (Z.to_nat (p - 1 + 1) - length (firstn (Z.to_nat p) code))%nat
    with 0%nat by lia.
  reflexivity.
Qed.

Lemma len_patched (code : list Z) (p b : Z) :
  0 <= p < len code ->
  len (firstn (Z.to_nat p) code ++ b :: skipn (Z.to_nat (p + 1)) code) = len code.
Proof.
  intros Hp. unfold len in *.
  rewrite length_app, firstn_length_le by lia. cbn [length].
  rewrite length_skipn. lia.
Qed.

(** A taken [jle] continues at the end of the instruction plus its
    displacement. *)
Lemma exec_jle_taken (d n : Z) (s : X86.state) :
  X86.cond_le (X86.fl s) = true ->
  X86.exec (X86.JLE d) n s
  = X86.Next (X86.mk_state (X86.regs s) (X86.fl s) (X86.pc s + n + d)).
Proof. intros H. cbn. now rewrite H. Qed.

Lemma assemble_eq :
  JitFibonacci.assemble
  = Ok (JitFibonacci.mk_assembled fibonacci_bytes 4 17 29 (-14) 34 29).
Proof. reflexivity. Qed.

(** C9: the two displacements of the Fibonacci routine are 29 (forward, to
    [return_n]) and -14 (backward, to [loop_start]); both lie in -128..127,
    and the bytes that [& 0xff] keeps of them, 0x1d and 0xf2, are their
    one-byte two's-complement encodings: sign-extended, they give the
    displacements back. *)
Theorem C9_fibonacci_displacements_fit :
  exists asm : JitFibonacci.assembled,
    JitFibonacci.assemble = Ok asm
    /\ JitFibonacci.jle_target_offset asm
       = JitFibonacci.return_n_pos asm - (JitFibonacci.jle_patch_pos asm + 1)
    /\ JitFibonacci.offset_to_loop asm
       = JitFibonacci.loop_start asm - (JitFibonacci.loop_end asm + 2)
    /\ JitFibonacci.jle_target_offset asm = 29
    /\ JitFibonacci.offset_to_loop asm = -14
    /\ -128 <= JitFibonacci.jle_target_offset asm <= 127
    /\ -128 <= JitFibonacci.offset_to_loop asm <= 127
    /\ Z.land (JitFibonacci.jle_target_offset asm) 0xff = 0x1d
    /\ Z.land (JitFibonacci.offset_to_loop asm) 0xff = 0xf2
    /\ nth_error (JitFibonacci.fibonacci_code asm)
                 (Z.to_nat (JitFibonacci.jle_patch_pos asm))
       = Some (Z.land (JitFibonacci.jle_target_offset asm) 0xff)
    /\ nth_error (JitFibonacci.fibonacci_code asm)
                 (Z.to_nat (JitFibonacci.loop_end asm + 1))
       = Some (Z.land (JitFibonacci.offset_to_loop asm) 0xff)
    /\ X86.sext8 (Z.land (JitFibonacci.jle_target_offset asm) 0xff)
       = JitFibonacci.jle_target_offset asm
    /\ X86.sext8 (Z.land (JitFibonacci.offset_to_loop asm) 0xff)
       = JitFibonacci.offset_to_loop asm.
Proof.
  eexists. split; [apply assemble_eq |].
  cbn [JitFibonacci.jle_target_offset JitFibonacci.offset_to_loop
       JitFibonacci.return_n_pos JitFibonacci.jle_patch_pos
       JitFibonacci.loop_start JitFibonacci.loop_end
       JitFibonacci.fibonacci_code].
  repeat match goal with |- _ /\ _ => split end;
    first [reflexivity | lia].
Qed.

(** C5: each branch of jit_fibonacci.py is given the displacement
    [label - instruction_end], where [instruction_end] is the offset just
    after the two bytes of the [jle]; the byte stored in the displacement
    field is its two's-complement encoding; and the processor, decoding the
    patched bytes, continues at [instruction_end + displacement], that is at
    the label.  For the routine itself the forward displacement (to
    [return_n]) is positive and the backward one (to [loop_start])
    negative. *)
Theorem C5_displacement_from_instruction_end
    (code : list Z) (loop_start : Z)
    (code2 : list Z) (jle_patch_pos return_n_pos : Z) :
  -128 <= loop_start - (len code + 2) <= 127 ->
  1 <= jle_patch_pos < len code2 ->
  nth_error code2 (Z.to_nat (jle_patch_pos - 1)) = Some 0x7e ->
  -128 <= return_n_pos - (jle_patch_pos + 1) <= 127 ->
  (exists code' d,
      JitFibonacci.emit_jle_loop code loop_start = Ok (code', len code, d)
      /\ len code' = len code + 2
      /\ d = loop_start - len code'
      /\ X86.fetch code' (len code + 1) = Some (Z.land d 0xff)
      /\ X86.sext8 (Z.land d 0xff) = d
      /\ X86.decode code' (len code) = Some (X86.JLE d, 2)
      /\ (forall s, X86.pc s = len code -> X86.cond_le (X86.fl s) = true ->
           X86.exec (X86.JLE d) 2 s
           = X86.Next (X86.mk_state (X86.regs s) (X86.fl s) loop_start)))
  /\ (exists code' d,
      JitFibonacci.patch_jle code2 jle_patch_pos return_n_pos = Ok (code', d)
      /\ len code' = len code2
      /\ d = return_n_pos - (jle_patch_pos + 1)
      /\ X86.fetch code' jle_patch_pos = Some (Z.land d 0xff)
      /\ X86.sext8 (Z.land d 0xff) = d
      /\ X86.decode code' (jle_patch_pos - 1) = Some (X86.JLE d, 2)
      /\ (forall s, X86.pc s = jle_patch_pos - 1 ->
           X86.cond_le (X86.fl s) = true ->
           X86.exec (X86.JLE d) 2 s
           = X86.Next (X86.mk_state (X86.regs s) (X86.fl s) return_n_pos)))
  /\ (exists asm,
      JitFibonacci.assemble = Ok asm
      /\ JitFibonacci.offset_to_loop asm
         = JitFibonacci.loop_start asm - (JitFibonacci.loop_end asm + 2)
      /\ JitFibonacci.offset_to_loop asm < 0
      /\ JitFibonacci.jle_target_offset asm
         = JitFibonacci.return_n_pos asm - (JitFibonacci.jle_patch_pos asm + 1)
      /\ 0 < JitFibonacci.jle_target_offset asm
      /\ X86.decode (JitFibonacci.fibonacci_code asm) (JitFibonacci.loop_end asm)
         = Some (X86.JLE (JitFibonacci.offset_to_loop asm), 2)
      /\ X86.decode (JitFibonacci.fibonacci_code asm)
                    (JitFibonacci.jle_patch_pos asm - 1)
         = Some (X86.JLE (JitFibonacci.jle_target_offset asm), 2)).
Proof.
  intros Hd1 Hp Hop Hd2. split; [| split].
  - rewrite emit_jle_loop_ok. do 2 eexists. split; [reflexivity |].
    rewrite len_app. change (len [0x7e; _]) with 2.
    pose proof (proj2 (sext8_mask (loop_start - (len code + 2))) Hd1) as Hs.
    repeat split.
    + now rewrite fetch_app_at by lia.
    + exact Hs.
    + rewrite decode_jle_at_end. now rewrite Hs.
    + intros s Hpc Hc. rewrite exec_jle_taken by assumption.
      rewrite Hpc. do 2 f_equal. lia.
  - rewrite patch_jle_ok by lia. do 2 eexists. split; [reflexivity |].
    pose proof (proj2 (sext8_mask (return_n_pos - (jle_patch_pos + 1))) Hd2)
      as Hs.
    repeat split.
    + apply len_patched. lia.
    + unfold X86.fetch. destruct (Z.ltb_spec jle_patch_pos 0); [lia |].
      unfold len in Hp.
      rewrite nth_error_app2 by (rewrite firstn_length_le; lia).
      rewrite firstn_length_le, Nat.sub_diag by lia. reflexivity.
    + exact Hs.
    + rewrite decode_jle_patched by assumption. now rewrite Hs.
    + intros s Hpc Hc. rewrite exec_jle_taken by assumption.
      rewrite Hpc. do 2 f_equal. lia.
  - eexists. split; [apply assemble_eq |].
    cbn [JitFibonacci.jle_target_offset JitFibonacci.offset_to_loop
         JitFibonacci.return_n_pos JitFibonacci.jle_patch_pos
         JitFibonacci.loop_start JitFibonacci.loop_end
         JitFibonacci.fibonacci_code].
    repeat split; first [reflexivity | lia].
Qed.

Lemma C5_displacement_from_instruction_end_witness :
  (exists code' d,
      JitFibonacci.emit_jle_loop (firstn 29 fibonacci_bytes) 17
      = Ok (code', 29, d)
      /\ d = -14
      /\ X86.decode code' 29 = Some (X86.JLE d, 2))
  /\ (exists code' d,
      JitFibonacci.patch_jle
        (firstn 4 fibonacci_bytes ++ 0 :: skipn 5 fibonacci_bytes) 4 34
      = Ok (code', d)
      /\ d = 29
      /\ X86.decode code' 3 = Some (X86.JLE d, 2)).
Proof.
  destruct (C5_displacement_from_instruction_end
              (firstn 29 fibonacci_bytes) 17
              (firstn 4 fibonacci_bytes ++ 0 :: skipn 5 fibonacci_bytes) 4 34)
    as ((c1 & d1 & E1 & _ & D1 & _ & _ & X1 & _)
        & (c2 & d2 & E2 & _ & D2 & _ & _ & X2 & _) & _).
  - cbn; lia.
  - cbn; lia.
  - reflexivity.
  - lia.
  - split.
    + exists c1, d1. split; [exact E1 |]. split; [| exact X1].
      rewrite D1.
      assert (L : len c1 = 31)
        by (rewrite emit_jle_loop_ok in E1; now injection E1 as <- _).
      rewrite L. reflexivity.
    + exists c2, d2. split; [exact E2 |]. split; [exact D2 | exact X2].
Defined.

(** C2, as the script has it: a loop body of 200 bytes (one hundred
    [mov esi, edx]) puts the backward branch 202 bytes from [loop_start];
    the branch is emitted all the same, with the byte 0x36 in its field,
    which the processor reads as 54 bytes forward.  Likewise a [return_n]
    295 bytes ahead is patched in as 0x27, that is 39. *)
Lemma C2_out_of_range_displacement_is_truncated :
  let body := concat (repeat [0x89; 0xd6] 100) in
  let far := firstn 5 fibonacci_bytes ++ repeat 0x00 295 in
  JitFibonacci.emit_jle_loop body 0 = Ok (body ++ [0x7e; 0x36], 200, -202)
  /\ -202 < -128
  /\ X86.decode (body ++ [0x7e; 0x36]) 200 = Some (X86.JLE 54, 2)
  /\ JitFibonacci.patch_jle far 4 300
     = Ok (firstn 4 fibonacci_bytes ++ 0x27 :: repeat 0x00 295, 295)
  /\ 127 < 295
  /\ X86.decode (firstn 4 fibonacci_bytes ++ 0x27 :: repeat 0x00 295) 3
     = Some (X86.JLE 39, 2).
Proof. cbv zeta. repeat split; first [reflexivity | lia]. Qed.

(** C2 (amended): no displacement makes the emission of a branch fail.  The
    backward branch is always appended, and the forward one patched whenever
    its placeholder lies inside the buffer, with the displacement reduced by
    [& 0xff] in the one-byte field; that byte is the displacement's
    two's-complement encoding, reading back as the displacement itself,
    exactly when the displacement lies in -128..127. *)
Theorem C2_displacement_is_masked
    (code : list Z) (loop_start jle_patch_pos return_n_pos : Z) :
  0 <= jle_patch_pos < len code ->
  let d1 := loop_start - (len code + 2) in
  let d2 := return_n_pos - (jle_patch_pos + 1) in
  JitFibonacci.emit_jle_loop code loop_start
  = Ok (code ++ [0x7e; Z.land d1 0xff], len code, d1)
  /\ JitFibonacci.patch_jle code jle_patch_pos return_n_pos
     = Ok (firstn (Z.to_nat jle_patch_pos) code
             ++ Z.land d2 0xff :: skipn (Z.to_nat (jle_patch_pos + 1)) code,
           d2)
  /\ 0 <= Z.land d1 0xff < 256
  /\ 0 <= Z.land d2 0xff < 256
  /\ (X86.sext8 (Z.land d1 0xff) = d1 <-> -128 <= d1 <= 127)
  /\ (X86.sext8 (Z.land d2 0xff) = d2 <-> -128 <= d2 <= 127).
Proof.
  intros Hp d1 d2.
  split; [apply emit_jle_loop_ok |].
  split; [now apply patch_jle_ok |].
  rewrite !land_0xff.
  split; [apply Z.mod_pos_bound; lia |].
  split; [apply Z.mod_pos_bound; lia |].
  rewrite <- !land_0xff. split; apply sext8_mask.
Qed.

Lemma C2_displacement_is_masked_witness :
  JitFibonacci.emit_jle_loop (firstn 29 fibonacci_bytes) 17
  = Ok (firstn 29 fibonacci_bytes ++ [0x7e; 0xf2], 29, -14)
  /\ JitFibonacci.patch_jle (firstn 29 fibonacci_bytes) 4 34
     = Ok (firstn 4 fibonacci_bytes ++ 0x1d :: skipn 5 (firstn 29 fibonacci_bytes),
           29).
Proof.
  destruct (C2_displacement_is_masked (firstn 29 fibonacci_bytes) 17 4 34)
    as (E1 & E2 & _).
  - cbn; lia.
  - split; [exact E1 | exact E2].
Defined.

(** ** 32-bit arithmetic *)

Lemma wrap32_range (x : Z) : 0 <= X86.wrap32 x < 4294967296.
Proof. unfold X86.wrap32. apply Z.mod_pos_bound. lia. Qed.

Lemma wrap32_small (x : Z) : 0 <= x < 4294967296 -> X86.wrap32 x = x.
Proof. unfold X86.wrap32. intros. now apply Z.mod_small. Qed.

Lemma wrap32_idem (x : Z) : X86.wrap32 (X86.wrap32 x) = X86.wrap32 x.
Proof. apply wrap32_small, wrap32_range. Qed.

Lemma wrap32_shift (x k : Z) : X86.wrap32 (x + k * 4294967296) = X86.wrap32 x.
Proof. unfold X86.wrap32. apply Z.mod_add. lia. Qed.

(** A signed 32-bit integer survives the trip through a register. *)
Lemma signed32_wrap32 (n : Z) :
  -2147483648 <= n < 2147483648 -> X86.signed32 (X86.wrap32 n) = n.
Proof.
  intros Hn. unfold X86.signed32, X86.msb32, X86.wrap32.
  pose proof (Z.mod_pos_bound n 4294967296 ltac:(lia)).
  pose proof (Z.div_mod n 4294967296 ltac:(lia)).
  destruct (Z.leb_spec 2147483648 (n mod 4294967296)); lia.
Qed.

Lemma wrap32_signed32 (x : Z) : X86.wrap32 (X86.signed32 x) = X86.wrap32 x.
Proof.
  unfold X86.signed32. destruct (X86.msb32 x); [| reflexivity].
  replace (x - 4294967296) with (x + (-1) * 4294967296) by lia.
  apply wrap32_shift.
Qed.

Lemma wrap32_add (x y : Z) :
  X86.wrap32 (X86.wrap32 x + X86.wrap32 y) = X86.wrap32 (x + y).
Proof. unfold X86.wrap32. symmetry. apply Z.add_mod. lia. Qed.

Lemma wrap32_mul (x y : Z) :
  X86.wrap32 (X86.wrap32 x * X86.wrap32 y) = X86.wrap32 (x * y).
Proof. unfold X86.wrap32. symmetry. apply Z.mul_mod. lia. Qed.

Lemma wrap32_mul_signed (x y : Z) :
  X86.wrap32 (X86.signed32 x * X86.signed32 y) = X86.wrap32 (x * y).
Proof.
  rewrite <- wrap32_mul, !wrap32_signed32. apply wrap32_mul.
Qed.

(** The four bytes of [struct.pack('<I', v)] are bytes, and the processor
    reads them back as [v]. *)
Lemma le_bytes_spec (v : Z) :
  0 <= v < 4294967296 ->
  exists b0 b1 b2 b3,
    le_bytes v = [b0; b1; b2; b3]
    /\ forallb is_byte [b0; b1; b2; b3] = true
    /\ b0 + 256 * b1 + 65536 * b2 + 16777216 * b3 = v.
Proof.
  intros Hv. unfold le_bytes.
  change 255 with (Z.ones 8). rewrite !Z.land_ones, !Z.shiftr_div_pow2 by lia.
  change (2 ^ 8) with 256. change (2 ^ 16) with (256 * 256).
  change (2 ^ 24) with (256 * 256 * 256).
  rewrite <- !Z.div_div by lia.
  pose proof (Z.div_mod v 256 ltac:(lia)).
  pose proof (Z.mod_pos_bound v 256 ltac:(lia)).
  set (q1 := v / 256) in *.
  pose proof (Z.div_mod q1 256 ltac:(lia)).
  pose proof (Z.mod_pos_bound q1 256 ltac:(lia)).
  set (q2 := q1 / 256) in *.
  pose proof (Z.div_mod q2 256 ltac:(lia)).
  pose proof (Z.mod_pos_bound q2 256 ltac:(lia)).
  set (q3 := q2 / 256) in *.
  pose proof (Z.div_mod q3 256 ltac:(lia)).
  pose proof (Z.mod_pos_bound q3 256 ltac:(lia)).
  do 4 eexists. split; [reflexivity |]. split.
  - cbn [forallb]. rewrite !is_byte_mod. reflexivity.
  - lia.
Qed.

Lemma struct_pack_I_ok (v : Z) :
  0 <= v < 4294967296 -> struct_pack_I v = Ok (le_bytes v).
Proof.
  intros Hv. unfold struct_pack_I.
  destruct (Z.leb_spec 0 v); [| lia].
  destruct (Z.leb_spec v 4294967295); [reflexivity | lia].
Qed.

(** ** Patching a return value in place (self_modify.py, parts 4 and 5) *)

Lemma run_mov_ret (b0 b1 b2 b3 : Z) (rest : list Z) (fuel : nat)
    (r : X86.regfile) (f : X86.eflags) :
  X86.run (S (S fuel)) (0xb8 :: b0 :: b1 :: b2 :: b3 :: 0xc3 :: rest)
          (X86.mk_state r f 0)
  = X86.Returned (b0 + 256 * b1 + 65536 * b2 + 16777216 * b3).
Proof. reflexivity. Qed.

(** A call of a region holding [mov eax, imm; ret] returns [imm], read as
    the result type, whatever the registers held on entry. *)
Lemma call_mov_ret (fuel : nat) (caller : X86.state) (t : ctype) (m : mmap)
    (imm : Z) (rest : list Z) :
  holds_mov_ret m imm rest -> 0 <= imm < 4294967296 ->
  call (S (S fuel)) caller (CFUNCTYPE t [] 0) m [] = Ok (of_c t imm).
Proof.
  intros ((Hc & _ & _) & _ & Hx & Hd) Himm. unfold call.
  cbn [argtypes entry restype len length Z.eqb Z.of_nat negb combine map
       load_args].
  rewrite Hc, Hx, Hd. cbn [negb orb].
  destruct (le_bytes_spec imm Himm) as (b0 & b1 & b2 & b3 & -> & _ & Hv).
  cbn [app]. rewrite run_mov_ret, Hv. reflexivity.
Qed.

(** Overwriting the four bytes at offset 1 replaces the immediate operand
    and nothing else. *)
Lemma patch_mov_ret (m : mmap) (imm v : Z) (rest : list Z) :
  holds_mov_ret m imm rest ->
  exists m',
    (m1 <- mmap_seek m 1 ;; mmap_write m1 (le_bytes v)) = Ok m'
    /\ holds_mov_ret m' v rest.
Proof.
  intros (Hwf & Hw & Hx & Hd). pose proof Hwf as (Hc & Hl & Hp).
  assert (Hsz : 6 <= size m).
  { rewrite <- Hl, Hd. unfold len. cbn [le_bytes app length]. lia. }
  rewrite mmap_seek_ok by (auto; lia). cbn [bind].
  set (m1 := mk_mmap _ _ _ _ _ _).
  assert (Hwf1 : mmap_wf m1) by (repeat split; cbn; auto; lia).
  rewrite (mmap_write_ok m1 (le_bytes v) Hwf1 Hw) by (cbn; lia).
  eexists; split; [reflexivity |].
  unfold holds_mov_ret, mmap_wf.
  cbn [data pos size prot closed m1]. rewrite Hd.
  change (firstn (Z.to_nat 1) (0xb8 :: le_bytes imm ++ 0xc3 :: rest)
            ++ le_bytes v
            ++ skipn (Z.to_nat (1 + len (le_bytes v)))
                 (0xb8 :: le_bytes imm ++ 0xc3 :: rest))
    with (0xb8 :: le_bytes v ++ 0xc3 :: rest).
  rewrite Hd in Hl. unfold len in *. cbn [le_bytes app length] in *.
  repeat split; auto; lia.
Qed.

Lemma signed32_small (v : Z) :
  0 <= v < 2147483648 -> X86.signed32 (X86.wrap32 v) = v.
Proof. intros. apply signed32_wrap32. lia. Qed.

(** One iteration of the loop of part 5 returns the value the region then
    holds and leaves [(i + 1) * 100] in its place. *)
Lemma iteration_spec (fuel : nat) (caller : X86.state) (m : mmap)
    (cur i : Z) (rest results : list Z) :
  holds_mov_ret m cur rest -> 0 <= cur < 2147483648 ->
  0 <= (i + 1) * 100 < 4294967296 ->
  exists m',
    SelfModify.iteration (S (S fuel)) caller (m, results) i
    = Ok (m', results ++ [cur])
    /\ holds_mov_ret m' ((i + 1) * 100) rest.
Proof.
  intros Hm Hcur Hi. unfold SelfModify.iteration, SelfModify.dynamic_func.
  rewrite (call_mov_ret fuel caller c_int m cur rest Hm) by lia.
  cbn [bind of_c]. rewrite signed32_small by assumption.
  rewrite struct_pack_I_ok by assumption. cbn [bind].
  destruct (patch_mov_ret m cur ((i + 1) * 100) rest Hm) as (m' & E & Hm').
  exists m'. split; [| assumption].
  revert E. destruct (mmap_seek m 1) as [m1 |]; cbn [bind]; [| discriminate].
  intros ->. reflexivity.
Qed.

Lemma last_cons {A : Type} (l : list A) :
  forall x d, last (x :: l) d = last l x.
Proof.
  induction l as [| y l IH]; intros x d; [reflexivity |].
  change (last (x :: y :: l) d) with (last (y :: l) d).
  now rewrite !IH.
Qed.

(** The loop of part 5 over any list of indices: the results are the value
    held at the start followed by all patched values but the last, which is
    left in the region. *)
Lemma iterations_spec (fuel : nat) (caller : X86.state) (rest : list Z)
    (idx : list Z) :
  forall (m : mmap) (cur : Z) (results : list Z),
    holds_mov_ret m cur rest -> 0 <= cur < 2147483648 ->
    Forall (fun i => 0 <= (i + 1) * 100 < 2147483648) idx ->
    exists m',
      fold_left (fun acc i => st <- acc ;;
                              SelfModify.iteration (S (S fuel)) caller st i)
                idx (Ok (m, results))
      = Ok (m', results
                  ++ removelast (cur :: map (fun i => (i + 1) * 100) idx))
      /\ holds_mov_ret m' (last (map (fun i => (i + 1) * 100) idx) cur) rest.
Proof.
  induction idx as [| i idx IH]; intros m cur results Hm Hcur Hall.
  - exists m. cbn. rewrite app_nil_r. auto.
  - inversion Hall as [| ? ? Hi Hrest]; subst.
    destruct (iteration_spec fuel caller m cur i rest results Hm Hcur)
      as (m1 & E1 & Hm1); [lia |].
    cbn [fold_left bind]. rewrite E1.
    destruct (IH m1 ((i + 1) * 100) (results ++ [cur]) Hm1 Hi Hrest)
      as (m' & E & Hm').
    exists m'. split.
    + rewrite E. rewrite <- app_assoc. reflexivity.
    + cbn [map]. rewrite last_cons. exact Hm'.
Qed.

Lemma part5_region :
  exists m0 m,
    SelfModify.exec_mem 4096 = Ok m0
    /\ mmap_write m0 SelfModify.base_code = Ok m
    /\ holds_mov_ret m 0 (skipn 6 (repeat 0 (Z.to_nat 4096))).
Proof.
  unfold SelfModify.exec_mem. rewrite mmap_new_ok by lia.
  eexists; eexists; split; [reflexivity |].
  set (m0 := mk_mmap _ _ _ _ _ _).
  assert (Hwf0 : mmap_wf m0)
    by (eapply mmap_new_wf; apply mmap_new_ok with (n := 4096); lia).
  rewrite (mmap_write_ok m0 SelfModify.base_code Hwf0 eq_refl) by (cbn; lia).
  split; [reflexivity |].
  unfold holds_mov_ret, mmap_wf. cbn [data pos size prot closed m0].
  repeat split; try reflexivity; cbn; lia.
Qed.

(** C3: part 5 of self_modify.py collects 0, 100, 200, ..., 1000: the call
    made after each overwrite of the immediate operand returns the value just
    written, in order.  In general, once the four bytes of any 32-bit value
    [v] have been written over the operand of a region holding
    [mov eax, imm; ret], the next call through the same function pointer
    returns [v] (as a C int), whatever the operand was before and whatever
    the registers hold on entry.  Part 4 likewise returns 42 and, after the
    region has been overwritten, 1337. *)
Theorem C3_call_after_overwrite_returns_new_value
    (fuel : nat) (caller : X86.state) (m : mmap) (old v : Z) (rest : list Z) :
  holds_mov_ret m old rest -> 0 <= v < 4294967296 ->
  SelfModify.part5 (S (S fuel)) caller
  = Ok [0; 100; 200; 300; 400; 500; 600; 700; 800; 900; 1000]
  /\ SelfModify.part4 (S (S fuel)) caller = Ok (42, 1337)
  /\ exists m',
      (new_bytes <- struct_pack_I v ;;
       m1 <- mmap_seek m 1 ;;
       mmap_write m1 new_bytes) = Ok m'
      /\ holds_mov_ret m' v rest
      /\ call (S (S fuel)) caller SelfModify.dynamic_func m' []
         = Ok (X86.signed32 v)
      /\ (v < 2147483648 ->
          call (S (S fuel)) caller SelfModify.dynamic_func m' [] = Ok v).
Proof.
  intros Hm Hv. split; [| split].
  - unfold SelfModify.part5.
    destruct part5_region as (m00 & m0 & -> & E0 & Hm0). cbn [bind].
    rewrite E0. cbn [bind].
    change (range 0 10) with [0; 1; 2; 3; 4; 5; 6; 7; 8; 9].
    destruct (iterations_spec fuel caller _ [0; 1; 2; 3; 4; 5; 6; 7; 8; 9]
                m0 0 [] Hm0 ltac:(lia)) as (m' & -> & Hm').
    { repeat constructor; lia. }
    cbn [bind]. unfold SelfModify.dynamic_func.
    rewrite (call_mov_ret fuel caller c_int m' _ _ Hm') by (cbn; lia).
    reflexivity.
  - vm_compute. reflexivity.
  - rewrite struct_pack_I_ok by assumption. cbn [bind].
    destruct (patch_mov_ret m old v rest Hm) as (m' & -> & Hm').
    exists m'. split; [reflexivity |]. split; [assumption |].
    unfold SelfModify.dynamic_func.
    rewrite (call_mov_ret fuel caller c_int m' v rest Hm') by assumption.
    cbn [of_c]. rewrite wrap32_small by assumption.
    split; [reflexivity |].
    intros Hsmall. f_equal. unfold X86.signed32, X86.msb32.
    destruct (Z.leb_spec 2147483648 v); [lia | reflexivity].
Qed.

Lemma C3_call_after_overwrite_returns_new_value_witness :
  SelfModify.part5 2 (X86.mk_state (X86.mk_regs 1 2 3 4 5 6 7 8)
                                   (X86.mk_flags true false true false) 0)
  = Ok [0; 100; 200; 300; 400; 500; 600; 700; 800; 900; 1000].
Proof.
  refine (proj1 (C3_call_after_overwrite_returns_new_value
                   0 _ (mk_mmap (0xb8 :: le_bytes 42 ++ [0xc3]) 6 0
                                SelfModify.RWX SelfModify.PRIVATE_ANON false)
                   42 1337 [] _ _)).
  - repeat split; cbn; lia.
  - lia.
Defined.

(** ** Compiling [a + b * c] (self_modify.py, part 6) *)

Lemma le_bytes_are_bytes (v : Z) : forallb is_byte (le_bytes v) = true.
Proof.
  unfold le_bytes. change 255 with (Z.ones 8). rewrite !Z.land_ones by lia.
  cbn [forallb]. change (2 ^ 8) with 256. now rewrite !is_byte_mod.
Qed.

Lemma bytearray_extend_le_bytes (code : list Z) (v : Z) :
  bytearray_extend code (le_bytes v) = Ok (code ++ le_bytes v).
Proof. unfold bytearray_extend. now rewrite le_bytes_are_bytes. Qed.

(** The 21 bytes the compiler emits: the three immediates reduced modulo
    2^32, then [imul ecx, edx], [add eax, ecx] and [ret]. *)
Lemma jit_compile_add_mul_eq (a b c : Z) :
  SelfModify.jit_compile_add_mul a b c
  = Ok (0xb8 :: le_bytes (X86.wrap32 a)
          ++ 0xb9 :: le_bytes (X86.wrap32 b)
          ++ 0xba :: le_bytes (X86.wrap32 c)
          ++ [0x0f; 0xaf; 0xca; 0x01; 0xc8; 0xc3]).
Proof.
  unfold SelfModify.jit_compile_add_mul.
  rewrite !land_0xFFFFFFFF.
  rewrite !struct_pack_I_ok by apply wrap32_range.
  change (bytearray_extend [] [0xb8]) with (Ok [0xb8]). cbn [bind].
  rewrite bytearray_extend_le_bytes. cbn [bind].
  set (c1 := [0xb8] ++ _).
  change (bytearray_extend c1 [0xb9]) with (Ok (c1 ++ [0xb9])). cbn [bind].
  rewrite bytearray_extend_le_bytes. cbn [bind].
  set (c2 := (c1 ++ _) ++ _).
  change (bytearray_extend c2 [0xba]) with (Ok (c2 ++ [0xba])). cbn [bind].
  rewrite bytearray_extend_le_bytes. cbn [bind].
  set (c3 := (c2 ++ _) ++ _).
  change (bytearray_extend c3 [0x0f; 0xaf; 0xca])
    with (Ok (c3 ++ [0x0f; 0xaf; 0xca])). cbn [bind].
  set (c4 := c3 ++ _).
  change (bytearray_extend c4 [0x01; 0xc8]) with (Ok (c4 ++ [0x01; 0xc8])).
  cbn [bind].
  set (c5 := c4 ++ _).
  change (bytearray_extend c5 [0xc3]) with (Ok (c5 ++ [0xc3])). cbn [bind].
  subst c5 c4 c3 c2 c1. reflexivity.
Qed.

Lemma run_add_mul (a0 a1 a2 a3 b0 b1 b2 b3 c0 c1 c2 c3 : Z) (rest : list Z)
    (fuel : nat) (r : X86.regfile) (f : X86.eflags) :
  X86.run (S (S (S (S (S (S fuel))))))
    (0xb8 :: a0 :: a1 :: a2 :: a3 :: 0xb9 :: b0 :: b1 :: b2 :: b3
       :: 0xba :: c0 :: c1 :: c2 :: c3
       :: 0x0f :: 0xaf :: 0xca :: 0x01 :: 0xc8 :: 0xc3 :: rest)
    (X86.mk_state r f 0)
  = X86.Returned
      (X86.wrap32
         ((a0 + 256 * a1 + 65536 * a2 + 16777216 * a3)
          + X86.wrap32
              (X86.signed32 (b0 + 256 * b1 + 65536 * b2 + 16777216 * b3)
               * X86.signed32 (c0 + 256 * c1 + 65536 * c2 + 16777216 * c3)))).
Proof. reflexivity. Qed.

(** The value the compiled routine leaves in [eax]. *)
Lemma add_mul_wraps (a b c : Z) :
  X86.wrap32 (X86.wrap32 a
              + X86.wrap32 (X86.signed32 (X86.wrap32 b)
                            * X86.signed32 (X86.wrap32 c)))
  = X86.wrap32 (a + b * c).
Proof.
  rewrite wrap32_mul_signed, wrap32_mul. apply wrap32_add.
Qed.

Lemma jit_run_spec (fuel : nat) (caller : X86.state) (exec_mem3 : mmap)
    (a b c : Z) :
  mmap_wf exec_mem3 ->
  has_flag (prot exec_mem3) PROT_WRITE = true ->
  has_flag (prot exec_mem3) PROT_EXEC = true ->
  21 <= size exec_mem3 ->
  exists m',
    SelfModify.jit_run (6 + fuel) caller exec_mem3 a b c
    = Ok (m', X86.signed32 (X86.wrap32 (a + b * c)))
    /\ mmap_wf m' /\ prot m' = prot exec_mem3 /\ size m' = size exec_mem3.
Proof.
  intros Hwf Hw Hx Hsz. pose proof Hwf as (Hc & Hl & Hp).
  unfold SelfModify.jit_run. rewrite jit_compile_add_mul_eq. cbn [bind].
  rewrite mmap_seek_ok by (auto; lia). cbn [bind].
  set (m1 := mk_mmap _ _ _ _ _ _).
  assert (Hwf1 : mmap_wf m1) by (repeat split; cbn; auto; lia).
  set (code := 0xb8 :: _).
  assert (Hlen : len code = 21) by reflexivity.
  rewrite (mmap_write_ok m1 code Hwf1 Hw) by (cbn [pos size m1]; lia).
  cbn [bind]. set (m2 := mk_mmap _ _ _ _ _ _).
  assert (Hwf2 : mmap_wf m2).
  { eapply (mmap_write_wf m1 m2 code Hwf1).
    apply mmap_write_ok; cbn [pos size m1]; auto; lia. }
  assert (Hcall : call (6 + fuel) caller (CFUNCTYPE c_int [] 0) m2 []
                  = Ok (X86.signed32 (X86.wrap32 (a + b * c)))).
  { unfold call.
    cbn [argtypes entry restype len length Z.eqb Z.of_nat negb combine map
         load_args closed prot m2 m1 orb data pos].
    rewrite Hx. cbn [negb].
    destruct (le_bytes_spec (X86.wrap32 a) (wrap32_range a))
      as (a0 & a1 & a2 & a3 & Ea & _ & Va).
    destruct (le_bytes_spec (X86.wrap32 b) (wrap32_range b))
      as (b0 & b1 & b2 & b3 & Eb & _ & Vb).
    destruct (le_bytes_spec (X86.wrap32 c) (wrap32_range c))
      as (c0 & c1 & c2 & c3 & Ec & _ & Vc).
    subst code. rewrite Ea, Eb, Ec.
    cbn [firstn Z.to_nat app Nat.add].
    rewrite run_add_mul, Va, Vb, Vc, add_mul_wraps.
    cbn [of_c]. now rewrite wrap32_idem. }
  rewrite Hcall. cbn [bind]. exists m2. repeat split; try apply Hwf2.
Qed.

(** C10: the routine compiled for [a + b * c] returns that sum reduced
    modulo 2^32 and read as a signed 32-bit integer, for all integers [a],
    [b], [c] and on any live writable and executable region of at least 21
    bytes; the three immediates are emitted reduced modulo 2^32.  Whenever
    [a + b * c] fits in a signed 32-bit integer the routine returns it
    exactly, and the four test cases of part 6 all pass. *)
Theorem C10_add_mul_wraps_to_32_bits
    (fuel : nat) (caller : X86.state) (exec_mem3 : mmap) (a b c : Z) :
  mmap_wf exec_mem3 ->
  has_flag (prot exec_mem3) PROT_WRITE = true ->
  has_flag (prot exec_mem3) PROT_EXEC = true ->
  21 <= size exec_mem3 ->
  SelfModify.jit_compile_add_mul a b c
  = Ok (0xb8 :: le_bytes (a mod 2 ^ 32)
          ++ 0xb9 :: le_bytes (b mod 2 ^ 32)
          ++ 0xba :: le_bytes (c mod 2 ^ 32)
          ++ [0x0f; 0xaf; 0xca; 0x01; 0xc8; 0xc3])
  /\ (exists m',
        SelfModify.jit_run (6 + fuel) caller exec_mem3 a b c
        = Ok (m', X86.signed32 ((a + b * c) mod 2 ^ 32)))
  /\ (-2 ^ 31 <= a + b * c < 2 ^ 31 ->
      exists m',
        SelfModify.jit_run (6 + fuel) caller exec_mem3 a b c
        = Ok (m', a + b * c))
  /\ SelfModify.part6 (6 + fuel) caller = Ok true.
Proof.
  intros Hwf Hw Hx Hsz.
  destruct (jit_run_spec fuel caller exec_mem3 a b c Hwf Hw Hx Hsz)
    as (m' & E & _).
  split; [apply jit_compile_add_mul_eq |].
  split; [exists m'; exact E |].
  split.
  - intros Hfit. exists m'. rewrite E. do 2 f_equal.
    apply signed32_wrap32. change (2 ^ 31) with 2147483648 in Hfit. lia.
  - vm_compute. reflexivity.
Qed.

Lemma C10_add_mul_wraps_to_32_bits_witness :
  exists m',
    SelfModify.jit_run 6 (X86.mk_state (X86.mk_regs 9 8 7 6 5 4 3 2)
                                       (X86.mk_flags false true false true) 0)
      (mk_mmap (repeat 0xc3 32) 32 7 SelfModify.RWX SelfModify.PRIVATE_ANON false)
      (-5) 70000 70000
    = Ok (m', X86.signed32 ((-5 + 70000 * 70000) mod 2 ^ 32)).
Proof.
  refine (proj1 (proj2 (C10_add_mul_wraps_to_32_bits
                          0 _ (mk_mmap (repeat 0xc3 32) 32 7 SelfModify.RWX
                                       SelfModify.PRIVATE_ANON false)
                          (-5) 70000 70000 _ _ _ _))).
  - repeat split; cbn; lia.
  - reflexivity.
  - reflexivity.
  - cbn; lia.
Defined.

(** ** Signed comparison *)

Lemma signed32_nonneg (x : Z) : 0 <= x < 2147483648 -> X86.signed32 x = x.
Proof.
  intros Hx. unfold X86.signed32, X86.msb32.
  destruct (Z.leb_spec 2147483648 x); [lia | reflexivity].
Qed.

Ltac decide_cmp :=
  repeat match goal with
         | |- context [?x <=? ?y] => destruct (Z.leb_spec x y)
         | |- context [?x <? ?y] => destruct (Z.ltb_spec x y)
         | |- context [?x =? ?y] => destruct (Z.eqb_spec x y)
         end.

(** After [cmp a, b] the condition of [jle] holds exactly when [a <= b] as
    signed 32-bit integers, overflow of the subtraction included. *)
Lemma cond_le_sub (a b : Z) :
  0 <= a < 4294967296 -> 0 <= b < 4294967296 ->
  X86.cond_le (X86.flags_sub a b) = (X86.signed32 a <=? X86.signed32 b).
Proof.
  intros Ha Hb.
  unfold X86.cond_le, X86.flags_sub, X86.signed32, X86.msb32.
  cbn [X86.ZF X86.SF X86.OF].
  assert (Hw : X86.wrap32 (a - b) = if a <? b then a - b + 4294967296 else a - b).
  { unfold X86.wrap32. destruct (Z.ltb_spec a b).
    - symmetry. apply Z.mod_unique with (q := -1); lia.
    - apply Z.mod_small. lia. }
  rewrite Hw. clear Hw.
  destruct (Z.ltb_spec a b); decide_cmp; cbn; try reflexivity; lia.
Qed.

(** ** The Fibonacci routine on the processor *)

Section FibonacciRoutine.

(** Whatever follows the routine in the region. *)
Variable rest : list Z.

Let mem : list Z := fibonacci_bytes ++ rest.

(** [cmp edi, 1; jle return_n]. *)
Lemma run_entry (fuel : nat) (a c d b sp bp si di : Z) (f : X86.eflags) :
  X86.run (S (S fuel)) mem
    (X86.mk_state (X86.mk_regs a c d b sp bp si di) f 0)
  = X86.run fuel mem
      (X86.mk_state (X86.mk_regs a c d b sp bp si di) (X86.flags_sub di 1)
         (if X86.cond_le (X86.flags_sub di 1) then 34 else 5)).
Proof. reflexivity. Qed.

(** [return_n: mov eax, edi; ret]. *)
Lemma run_return_n (fuel : nat) (a c d b sp bp si di : Z) (f : X86.eflags) :
  X86.run (S (S fuel)) mem
    (X86.mk_state (X86.mk_regs a c d b sp bp si di) f 34)
  = X86.Returned di.
Proof. reflexivity. Qed.

(** [xor eax, eax; mov edx, 1; mov ecx, 2]. *)
Lemma run_init (fuel : nat) (a c d b sp bp si di : Z) (f : X86.eflags) :
  X86.run (S (S (S fuel))) mem
    (X86.mk_state (X86.mk_regs a c d b sp bp si di) f 5)
  = X86.run fuel mem
      (X86.mk_state (X86.mk_regs 0 2 1 b sp bp si di) (X86.flags_logic 0) 17).
Proof.
  change (X86.run (S (S (S fuel))) mem
            (X86.mk_state (X86.mk_regs a c d b sp bp si di) f 5))
    with (X86.run fuel mem
            (X86.mk_state (X86.mk_regs (Z.lxor a a) 2 1 b sp bp si di)
                          (X86.flags_logic (Z.lxor a a)) 17)).
  now rewrite Z.lxor_nilpotent.
Qed.

(** The loop body, from [loop_start] to the backward [jle]. *)
Lemma run_body (fuel : nat) (a c d b sp bp si di : Z) (f : X86.eflags) :
  X86.run (S (S (S (S (S (S (S fuel))))))) mem
    (X86.mk_state (X86.mk_regs a c d b sp bp si di) f 17)
  = X86.run fuel mem
      (X86.mk_state
         (X86.mk_regs d (X86.wrap32 (c + 1)) (X86.wrap32 (d + a)) b sp bp
                      (X86.wrap32 (d + a)) di)
         (X86.flags_sub (X86.wrap32 (c + 1)) di)
         (if X86.cond_le (X86.flags_sub (X86.wrap32 (c + 1)) di)
          then 17 else 31)).
Proof. reflexivity. Qed.

(** [mov eax, edx; ret]. *)
Lemma run_exit (fuel : nat) (a c d b sp bp si di : Z) (f : X86.eflags) :
  X86.run (S (S fuel)) mem
    (X86.mk_state (X86.mk_regs a c d b sp bp si di) f 31)
  = X86.Returned d.
Proof. reflexivity. Qed.

(** The loop, entered with the counter at [i <= n]: it turns [(a, b)]
    [n - i + 1] times and returns the second component. *)
Lemma run_loop (k : nat) :
  forall (fuel : nat) (a i d b sp bp si n : Z) (f : X86.eflags),
    0 <= i -> i + Z.of_nat k = n -> n < 2147483647 ->
    X86.run (7 * S k + 2 + fuel) mem
      (X86.mk_state (X86.mk_regs a i d b sp bp si n) f 17)
    = X86.Returned (snd (Nat.iter (S k) fib_step32 (a, d))).
Proof.
  induction k as [| k IH]; intros fuel a i d b sp bp si n f Hi Hk Hn.
  - change (7 * 1 + 2 + fuel)%nat
      with (S (S (S (S (S (S (S (S (S fuel))))))))).
    rewrite run_body.
    rewrite (wrap32_small (i + 1)) by lia.
    rewrite cond_le_sub by lia.
    rewrite !signed32_nonneg by lia.
    destruct (Z.leb_spec (i + 1) n); [lia |].
    rewrite run_exit. cbn. now rewrite Z.add_comm.
  - replace (7 * S (S k) + 2 + fuel)%nat
      with (S (S (S (S (S (S (S (7 * S k + 2 + fuel)))))))) by lia.
    rewrite run_body.
    rewrite (wrap32_small (i + 1)) by lia.
    rewrite cond_le_sub by lia.
    rewrite !signed32_nonneg by lia.
    destruct (Z.leb_spec (i + 1) n); [| lia].
    rewrite IH by lia.
    rewrite (Nat.iter_succ_r (S k)). cbn [fib_step32 fst snd].
    now rewrite (Z.add_comm d a).
Qed.

(** The whole routine for [n <= 1]: it returns its argument register. *)
Lemma run_small (fuel : nat) (a c d b sp bp si di : Z) (f : X86.eflags) :
  0 <= di < 4294967296 -> X86.signed32 di <= 1 ->
  X86.run (4 + fuel) mem (X86.mk_state (X86.mk_regs a c d b sp bp si di) f 0)
  = X86.Returned di.
Proof.
  intros Hdi Hle.
  change (4 + fuel)%nat with (S (S (S (S fuel)))).
  rewrite run_entry, cond_le_sub by lia.
  change (X86.signed32 1) with 1.
  destruct (Z.leb_spec (X86.signed32 di) 1); [| lia].
  apply run_return_n.
Qed.

(** The whole routine for [2 <= n]: [n - 1] turns of the loop from
    [(0, 1)]. *)
Lemma run_large (fuel : nat) (a c d b sp bp si n : Z) (f : X86.eflags) :
  2 <= n < 2147483647 ->
  X86.run (7 * Z.to_nat n + fuel) mem
    (X86.mk_state (X86.mk_regs a c d b sp bp si n) f 0)
  = X86.Returned (snd (Nat.iter (Z.to_nat (n - 1)) fib_step32 (0, 1))).
Proof.
  intros Hn.
  replace (7 * Z.to_nat n + fuel)%nat
    with (S (S (S (S (S (7 * S (Z.to_nat (n - 2)) + 2 + fuel)))))) by lia.
  rewrite run_entry, cond_le_sub by lia.
  change (X86.signed32 1) with 1.
  rewrite signed32_nonneg by lia.
  destruct (Z.leb_spec n 1); [lia |].
  rewrite run_init.
  rewrite (run_loop (Z.to_nat (n - 2))) by lia.
  replace (S (Z.to_nat (n - 2))) with (Z.to_nat (n - 1)) by lia.
  reflexivity.
Qed.

End FibonacciRoutine.

(** ** jit_fibonacci.py against its reference *)

(** The region after line 124: the routine, then what is left of the zeroed
    page. *)
Lemma loaded_eq :
  JitFibonacci.loaded
  = Ok (mk_mmap (fibonacci_bytes ++ skipn 37 (repeat 0 (Z.to_nat 4096)))
                4096 37 7 34 false).
Proof. reflexivity. Qed.

Lemma fib_jit_eq (fuel : nat) (caller : X86.state) (n : Z) :
  JitFibonacci.fib_jit fuel caller n
  = match X86.run fuel (fibonacci_bytes ++ skipn 37 (repeat 0 (Z.to_nat 4096)))
            (X86.mk_state (X86.set X86.EDI (X86.wrap32 n) (X86.regs caller))
                          (X86.fl caller) 0) with
    | X86.Returned v => Ok (X86.signed32 (X86.wrap32 v))
    | X86.Fault => Raise (Crash "fault in generated code")
    | X86.OutOfFuel => Raise (Crash "step budget exhausted")
    end.
Proof. unfold JitFibonacci.fib_jit. rewrite loaded_eq. reflexivity. Qed.

(** For an argument up to 1 the routine returns the argument. *)
Lemma fib_jit_small (fuel : nat) (caller : X86.state) (n : Z) :
  (4 <= fuel)%nat -> -2147483648 <= n <= 1 ->
  JitFibonacci.fib_jit fuel caller n = Ok n.
Proof.
  intros Hf Hn. rewrite fib_jit_eq.
  replace fuel with (4 + (fuel - 4))%nat by lia.
  destruct caller as [[a c d b sp bp si di] f pc0]. cbn [X86.regs X86.fl X86.set].
  cbn [X86.eax X86.ecx X86.edx X86.ebx X86.esp X86.ebp X86.esi X86.edi].
  rewrite run_small.
  - now rewrite wrap32_idem, signed32_wrap32 by lia.
  - apply wrap32_range.
  - rewrite signed32_wrap32; lia.
Qed.

(** From 2 on it returns what [n - 1] turns of the 32-bit loop leave in the
    second register. *)
Lemma fib_jit_large (fuel : nat) (caller : X86.state) (n : Z) :
  (7 * Z.to_nat n <= fuel)%nat -> 2 <= n < 2147483647 ->
  JitFibonacci.fib_jit fuel caller n
  = Ok (X86.signed32
          (X86.wrap32 (snd (Nat.iter (Z.to_nat (n - 1)) fib_step32 (0, 1))))).
Proof.
  intros Hf Hn. rewrite fib_jit_eq.
  replace fuel with (7 * Z.to_nat n + (fuel - 7 * Z.to_nat n))%nat by lia.
  destruct caller as [[a c d b sp bp si di] f pc0]. cbn [X86.regs X86.fl X86.set].
  cbn [X86.eax X86.ecx X86.edx X86.ebx X86.esp X86.ebp X86.esi X86.edi].
  rewrite (wrap32_small n) by lia.
  now rewrite run_large by lia.
Qed.

Lemma fold_left_const_iter {A B : Type} (f : A -> B -> A) (g : A -> A)
    (l : list B) :
  (forall acc y, f acc y = g acc) ->
  forall x, fold_left f l x = Nat.iter (length l) g x.
Proof.
  intros Hfg. induction l as [| y l IH]; intros x; [reflexivity |].
  cbn [fold_left length]. rewrite IH, Hfg. symmetry. apply Nat.iter_succ_r.
Qed.

Lemma len_range (lo hi : Z) : length (range lo hi) = Z.to_nat (hi - lo).
Proof. unfold range. now rewrite length_map, length_seq. Qed.

Lemma In_range (lo hi x : Z) : lo <= x < hi -> In x (range lo hi).
Proof.
  intros Hx. unfold range. apply in_map_iff.
  exists (Z.to_nat (x - lo)). split; [lia |]. apply in_seq. lia.
Qed.

(** The reference function as iterated turns on unbounded integers. *)
Lemma fib_python_iter (n : Z) :
  2 <= n ->
  JitFibonacci.fib_python n
  = snd (Nat.iter (Z.to_nat (n - 1)) fib_step (0, 1)).
Proof.
  intros Hn. unfold JitFibonacci.fib_python.
  destruct (Z.leb_spec n 1); [lia |].
  rewrite (fold_left_const_iter _ fib_step) by (intros [a b] ?; reflexivity).
  rewrite len_range. do 3 f_equal. lia.
Qed.

(** The 32-bit loop follows the unbounded one modulo 2^32. *)
Lemma fib_step32_iter (k : nat) (a b : Z) :
  Nat.iter k fib_step32 (X86.wrap32 a, X86.wrap32 b)
  = (X86.wrap32 (fst (Nat.iter k fib_step (a, b))),
     X86.wrap32 (snd (Nat.iter k fib_step (a, b)))).
Proof.
  induction k as [| k IH]; [reflexivity |].
  cbn [Nat.iter nat_rect]. change (nat_rect _ ?x (fun _ => ?g) k)
    with (Nat.iter k g x). rewrite IH.
  unfold fib_step32 at 1, fib_step at 3 5. cbn [fst snd].
  now rewrite wrap32_add.
Qed.

(** The routine computes the reference function modulo 2^32, read as a
    signed 32-bit integer, for every argument of the C type [int] short of
    [INT_MAX]. *)
Lemma fib_jit_spec (fuel : nat) (caller : X86.state) (n : Z) :
  (Nat.max 4 (7 * Z.to_nat n) <= fuel)%nat -> -2147483648 <= n < 2147483647 ->
  JitFibonacci.fib_jit fuel caller n
  = Ok (X86.signed32 (X86.wrap32 (JitFibonacci.fib_python n))).
Proof.
  intros Hf Hn. destruct (Z_le_gt_dec n 1) as [Hle | Hgt].
  - rewrite fib_jit_small by lia.
    unfold JitFibonacci.fib_python. destruct (Z.leb_spec n 1); [| lia].
    now rewrite signed32_wrap32 by lia.
  - rewrite fib_jit_large by lia.
    rewrite fib_python_iter by lia.
    change (0, 1) with (X86.wrap32 0, X86.wrap32 1) at 1.
    rewrite fib_step32_iter. cbn [snd]. now rewrite wrap32_idem.
Qed.

Lemma fib_python_values :
  map JitFibonacci.fib_python (range 0 21)
  = [0; 1; 1; 2; 3; 5; 8; 13; 21; 34; 55; 89; 144; 233; 377; 610; 987; 1597;
     2584; 4181; 6765].
Proof. reflexivity. Qed.

Lemma fib_python_fits (n : Z) :
  0 <= n <= 20 -> 0 <= JitFibonacci.fib_python n < 2147483648.
Proof.
  intros Hn.
  assert (H : forallb (fun k => (0 <=? JitFibonacci.fib_python k)
                                && (JitFibonacci.fib_python k <? 2147483648))
                      (range 0 21) = true) by reflexivity.
  rewrite forallb_forall in H. specialize (H n (In_range 0 21 n ltac:(lia))).
  apply andb_true_iff in H. destruct H as [H1 H2].
  apply Z.leb_le in H1. apply Z.ltb_lt in H2. lia.
Qed.

(** The comparison loop of lines 143-150 over any list of arguments the
    routine agrees on. *)
Lemma all_match_on (fuel : nat) (caller : X86.state) (l : list Z) :
  (forall n, In n l ->
     JitFibonacci.fib_jit fuel caller n = Ok (JitFibonacci.fib_python n)) ->
  fold_left
    (fun acc n =>
       all_match <- acc ;;
       jit_result <- JitFibonacci.fib_jit fuel caller n ;;
       let py_result := JitFibonacci.fib_python n in
       Ok (if negb (jit_result =? py_result) then false else all_match))
    l (Ok true) = Ok true.
Proof.
  induction l as [| n l IH]; intros H; [reflexivity |].
  cbn [fold_left bind]. rewrite (H n (or_introl eq_refl)). cbn [bind].
  rewrite Z.eqb_refl. cbn [negb]. apply IH.
  intros k Hk. apply H. now right.
Qed.

(** C1: for every n from 0 to 20 the routine, copied into its region and
    called as [int f(int)], returns what the reference function returns,
    whatever the registers hold on entry and given 140 instructions or more;
    for n = 0..10 both give 0, 1, 1, 2, 3, 5, 8, 13, 21, 34, 55; and the
    script's own comparison over [range(20)] finds every value matching. *)
Theorem C1_fibonacci_routine_matches_reference
    (fuel : nat) (caller : X86.state) (n : Z) :
  (140 <= fuel)%nat -> 0 <= n <= 20 ->
  JitFibonacci.fib_jit fuel caller n = Ok (JitFibonacci.fib_python n)
  /\ map (JitFibonacci.fib_jit fuel caller) (range 0 11)
     = map Ok [0; 1; 1; 2; 3; 5; 8; 13; 21; 34; 55]
  /\ map JitFibonacci.fib_python (range 0 11)
     = [0; 1; 1; 2; 3; 5; 8; 13; 21; 34; 55]
  /\ JitFibonacci.all_match fuel caller = Ok true.
Proof.
  intros Hf Hn.
  assert (Hall : forall k, 0 <= k <= 20 ->
            JitFibonacci.fib_jit fuel caller k = Ok (JitFibonacci.fib_python k)).
  { intros k Hk. rewrite fib_jit_spec by lia.
    now rewrite signed32_small by (apply fib_python_fits; lia). }
  split; [now apply Hall |]. split; [| split].
  - change (range 0 11) with [0; 1; 2; 3; 4; 5; 6; 7; 8; 9; 10].
    cbn [map]. rewrite !Hall by lia. reflexivity.
  - reflexivity.
  - unfold JitFibonacci.all_match. apply all_match_on.
    intros k Hk. apply Hall.
    unfold range in Hk. apply in_map_iff in Hk.
    destruct Hk as (j & <- & Hj). apply in_seq in Hj.
    change (Z.to_nat (20 - 0)) with 20%nat in Hj. lia.
Qed.

Lemma C1_fibonacci_routine_matches_reference_witness :
  JitFibonacci.fib_jit 140 (X86.mk_state (X86.mk_regs 11 12 13 14 15 16 17 18)
                                          (X86.mk_flags true true false false) 0)
                       20
  = Ok 6765.
Proof.
  refine (proj1 (C1_fibonacci_routine_matches_reference 140 _ 20 _ _)); lia.
Defined.

(** C8: for every argument n of the C type [int] with n <= 1, negative ones
    included, the routine returns n unchanged: [cmp edi, 1] and the signed
    [jle] lead to [return_n], where the argument register is moved to the
    return register; the reference function returns n as well. *)
Theorem C8_argument_up_to_one_is_returned
    (fuel : nat) (caller : X86.state) (n : Z) :
  -2147483648 <= n <= 1 ->
  JitFibonacci.fib_jit (4 + fuel) caller n = Ok n
  /\ JitFibonacci.fib_python n = n
  /\ (forall rest a c d b sp bp si f,
        X86.run 2 (fibonacci_bytes ++ rest)
          (X86.mk_state (X86.mk_regs a c d b sp bp si (X86.wrap32 n)) f 0)
        = X86.run 0 (fibonacci_bytes ++ rest)
            (X86.mk_state (X86.mk_regs a c d b sp bp si (X86.wrap32 n))
                          (X86.flags_sub (X86.wrap32 n) 1) 34)
        /\ X86.run (4 + fuel) (fibonacci_bytes ++ rest)
             (X86.mk_state (X86.mk_regs a c d b sp bp si (X86.wrap32 n)) f 0)
           = X86.Returned (X86.wrap32 n))
  /\ X86.signed32 (X86.wrap32 n) = n.
Proof.
  intros Hn. split; [apply fib_jit_small; lia |]. split; [| split].
  - unfold JitFibonacci.fib_python. destruct (Z.leb_spec n 1); [reflexivity | lia].
  - intros rest a c d b sp bp si f.
    pose proof (wrap32_range n) as Hr.
    assert (Hs : X86.signed32 (X86.wrap32 n) = n) by (apply signed32_wrap32; lia).
    split.
    + rewrite run_entry, cond_le_sub by lia.
      change (X86.signed32 1) with 1. rewrite Hs.
      destruct (Z.leb_spec n 1); [reflexivity | lia].
    + apply run_small; [assumption | lia].
  - apply signed32_wrap32. lia.
Qed.

Lemma C8_argument_up_to_one_is_returned_witness :
  JitFibonacci.fib_jit 4 (X86.mk_state (X86.mk_regs 11 12 13 14 15 16 17 18)
                                        (X86.mk_flags false true true false) 0)
                       (-2147483648)
  = Ok (-2147483648).
Proof.
  refine (proj1 (C8_argument_up_to_one_is_returned 0 _ (-2147483648) _)); lia.
Defined.

(** * Further properties *)

(** ** The Fibonacci routine beyond the tested range *)

Lemma signed32_bounds (x : Z) :
  0 <= x < 4294967296 -> -2147483648 <= X86.signed32 x <= 2147483647.
Proof.
  intros Hx. unfold X86.signed32, X86.msb32.
  destruct (Z.leb_spec 2147483648 x); lia.
Qed.

(** X1: for every argument of the C type [int] short of [INT_MAX] the routine
    returns, after at most [max 4 (7 n)] instructions and whatever the
    registers held on entry, the value of the reference function reduced
    modulo 2^32 and read as a signed 32-bit integer. *)
Theorem X1_fib_jit_is_fib_python_modulo_2_32
    (fuel : nat) (caller : X86.state) (n : Z) :
  (Nat.max 4 (7 * Z.to_nat n) <= fuel)%nat ->
  -2147483648 <= n < 2147483647 ->
  JitFibonacci.fib_jit fuel caller n
  = Ok (X86.signed32 (JitFibonacci.fib_python n mod 2 ^ 32)).
Proof. intros Hf Hn. now apply fib_jit_spec. Qed.

Lemma X1_fib_jit_is_fib_python_modulo_2_32_witness :
  JitFibonacci.fib_jit 700 (X86.mk_state (X86.mk_regs 1 2 3 4 5 6 7 8)
                                          (X86.mk_flags true false false true) 9)
                       100
  = Ok (X86.signed32 (JitFibonacci.fib_python 100 mod 2 ^ 32)).
Proof.
  apply (X1_fib_jit_is_fib_python_modulo_2_32 700 _ 100);
    [apply Nat.leb_le; reflexivity | lia].
Defined.

Lemma fib_python_fits_46 (n : Z) :
  0 <= n <= 46 -> 0 <= JitFibonacci.fib_python n < 2147483648.
Proof.
  intros Hn.
  assert (H : forallb (fun k => (0 <=? JitFibonacci.fib_python k)
                                && (JitFibonacci.fib_python k <? 2147483648))
                      (range 0 47) = true) by (vm_compute; reflexivity).
  rewrite forallb_forall in H. specialize (H n (In_range 0 47 n ltac:(lia))).
  apply andb_true_iff in H. destruct H as [H1 H2].
  apply Z.leb_le in H1. apply Z.ltb_lt in H2. lia.
Qed.

(** X2: the routine and the reference function agree on every argument from
    [INT_MIN] to 46, which covers the timing run at n = 30; at n = 47 the
    32-bit sum has wrapped and they differ: the routine returns -1323752223
    where the reference function returns 2971215073. *)
Theorem X2_fib_jit_exact_up_to_46
    (fuel : nat) (caller : X86.state) (n : Z) :
  (329 <= fuel)%nat -> -2147483648 <= n <= 46 ->
  JitFibonacci.fib_jit fuel caller n = Ok (JitFibonacci.fib_python n)
  /\ JitFibonacci.fib_jit fuel caller 30 = Ok 832040
  /\ JitFibonacci.fib_python 47 = 2971215073
  /\ JitFibonacci.fib_jit fuel caller 47 = Ok (-1323752223).
Proof.
  intros Hf Hn.
  assert (Hall : forall k, -2147483648 <= k <= 46 ->
            JitFibonacci.fib_jit fuel caller k = Ok (JitFibonacci.fib_python k)).
  { intros k Hk. rewrite fib_jit_spec by lia. f_equal.
    destruct (Z_le_gt_dec k 1).
    - unfold JitFibonacci.fib_python. destruct (Z.leb_spec k 1); [| lia].
      apply signed32_wrap32. lia.
    - apply signed32_small, fib_python_fits_46. lia. }
  split; [now apply Hall |]. split; [| split].
  - rewrite Hall by lia. reflexivity.
  - reflexivity.
  - rewrite fib_jit_spec by lia. reflexivity.
Qed.

Lemma X2_fib_jit_exact_up_to_46_witness :
  JitFibonacci.fib_jit 329 (X86.mk_state (X86.mk_regs 1 2 3 4 5 6 7 8)
                                          (X86.mk_flags true false false true) 9)
                       46
  = Ok (JitFibonacci.fib_python 46).
Proof.
  refine (proj1 (X2_fib_jit_exact_up_to_46 329 _ 46 _ _)); lia.
Defined.

(** With [n = INT_MAX] the signed test [i <= n] of the loop can never fail,
    so control never leaves the loop. *)
Lemma run_loop_forever (rest : list Z) (fuel : nat) :
  forall (a i d b sp bp si : Z) (f : X86.eflags),
    0 <= i < 4294967296 ->
    X86.run fuel (fibonacci_bytes ++ rest)
      (X86.mk_state (X86.mk_regs a i d b sp bp si 2147483647) f 17)
    = X86.OutOfFuel.
Proof.
  induction fuel as [fuel IH] using lt_wf_ind.
  intros a i d b sp bp si f Hi.
  do 7 (destruct fuel as [| fuel]; [reflexivity |]).
  rewrite run_body.
  pose proof (wrap32_range (i + 1)) as Hw.
  rewrite cond_le_sub by lia.
  pose proof (signed32_bounds _ Hw) as Hs.
  change (X86.signed32 2147483647) with 2147483647.
  destruct (Z.leb_spec (X86.signed32 (X86.wrap32 (i + 1))) 2147483647); [| lia].
  apply IH; [lia | assumption].
Qed.

(** X3: called with [INT_MAX] the routine never returns: whatever number of
    instructions is allowed, the call is still inside the loop when they are
    used up (the counter wraps round to [INT_MIN] and stays below or equal
    to [n]). *)
Theorem X3_fib_jit_int_max_never_returns (fuel : nat) (caller : X86.state) :
  JitFibonacci.fib_jit fuel caller 2147483647
  = Raise (Crash "step budget exhausted")
  /\ forall rest a c d b sp bp si f,
       X86.run fuel (fibonacci_bytes ++ rest)
         (X86.mk_state (X86.mk_regs a c d b sp bp si 2147483647) f 0)
       = X86.OutOfFuel.
Proof.
  assert (H : forall rest a c d b sp bp si f,
             X86.run fuel (fibonacci_bytes ++ rest)
               (X86.mk_state (X86.mk_regs a c d b sp bp si 2147483647) f 0)
             = X86.OutOfFuel).
  { intros rest a c d b sp bp si f.
    do 2 (destruct fuel as [| fuel]; [reflexivity |]).
    rewrite run_entry.
    change (X86.cond_le (X86.flags_sub 2147483647 1)) with false. cbn iota.
    do 3 (destruct fuel as [| fuel]; [reflexivity |]).
    rewrite run_init. apply run_loop_forever. lia. }
  split; [| exact H].
  rewrite fib_jit_eq.
  destruct caller as [[a c d b sp bp si di] f pc0].
  cbn [X86.regs X86.fl X86.set X86.eax X86.ecx X86.edx X86.ebx X86.esp
       X86.ebp X86.esi X86.edi].
  change (X86.wrap32 2147483647) with 2147483647.
  now rewrite H.
Qed.


(** ** Code through an image and back (image_executor_v2.py) *)

Section ImageRoundTrip.

Import ImageCodec.

Variables (w h : Z).
Hypothesis w_pos : 1 <= w.
Hypothesis h_nonneg : 0 <= h.

(** The pixel a code byte becomes, and an untouched pixel. *)
Let enc (byte : Z) : pixel := (clip8 byte, 255, 0).
Let black : pixel := (0, 0, 0).

Lemma locate_row_major (img : image) (i : Z) :
  width img = w -> height img = h -> 0 <= i < w * h ->
  locate img (i mod w) (i / w) = Ok i.
Proof.
  intros Hw Hh Hi. unfold locate. rewrite Hw, Hh.
  pose proof (Z.mod_pos_bound i w ltac:(lia)) as Hm.
  assert (Hq : 0 <= i / w < h).
  { split; [apply Z.div_pos; lia |].
    apply Z.div_lt_upper_bound; lia. }
  assert (E1 : (i mod w <? 0) = false) by (apply Z.ltb_ge; lia).
  assert (E2 : (i / w <? 0) = false) by (apply Z.ltb_ge; lia).
  assert (E3 : (w <=? i mod w) = false) by (apply Z.leb_gt; lia).
  assert (E4 : (h <=? i / w) = false) by (apply Z.leb_gt; lia).
  cbv zeta. rewrite !E1, !E2, E3, E4. cbn [orb]. f_equal.
  pose proof (Z.div_mod i w ltac:(lia)). lia.
Qed.

Lemma locate_outside (img : image) (i : Z) :
  width img = w -> height img = h -> w * h <= i ->
  locate img (i mod w) (i / w) = Raise (IndexError "image index out of range").
Proof.
  intros Hw Hh Hi. unfold locate. rewrite Hw, Hh.
  pose proof (Z.mod_pos_bound i w ltac:(lia)) as Hm.
  assert (Hq : h <= i / w) by (apply Z.div_le_lower_bound; lia).
  assert (E1 : (i mod w <? 0) = false) by (apply Z.ltb_ge; lia).
  assert (E2 : (i / w <? 0) = false) by (apply Z.ltb_ge; lia).
  assert (E4 : (h <=? i / w) = true) by (apply Z.leb_le; lia).
  cbv zeta. rewrite !E1, !E2, E4. now rewrite !orb_true_r.
Qed.

(** The encoding loop writes the bytes one after the other from the first
    pixel on and touches nothing else. *)
Lemma encode_loop (code : list Z) :
  forall (done : list pixel) (pad : nat),
    (length code <= pad)%nat ->
    len done + Z.of_nat pad <= w * h ->
    fold_left (fun acc ib => img <- acc ;; put_byte w img ib)
              (enumerate (len done) code)
              (Ok (mk_image w h (done ++ repeat black pad)))
    = Ok (mk_image w h ((done ++ map enc code)
                          ++ repeat black (pad - length code))).
Proof.
  induction code as [| byte code IH]; intros done pad Hpad Hfit.
  - cbn. now rewrite app_nil_r, Nat.sub_0_r.
  - cbn [enumerate fold_left bind length] in *.
    destruct pad as [| pad]; [lia |].
    unfold put_byte at 2, py_mod, py_floordiv.
    destruct (Z.eqb_spec w 0); [lia |]. cbn [bind].
    unfold setitem.
    rewrite locate_row_major by (cbn; auto; unfold len in *; lia).
    cbn [bind width height px].
    replace (Z.to_nat (len done)) with (length done) by (unfold len; lia).
    replace (Z.to_nat (len done + 1)) with (length done + 1)%nat
      by (unfold len; lia).
    rewrite firstn_app, firstn_all, Nat.sub_diag. cbn [firstn].
    rewrite skipn_app, skipn_all2 by lia.
    replace (length done + 1 - length done)%nat with 1%nat by lia.
    cbn [repeat skipn app]. rewrite app_nil_r.
    change (clip_pixel (byte, 255, 0)) with (enc byte).
    replace (done ++ enc byte :: repeat black pad)
      with ((done ++ [enc byte]) ++ repeat black pad)
      by (now rewrite <- app_assoc).
    replace (len done + 1) with (len (done ++ [enc byte]))
      by (unfold len; rewrite length_app; cbn; lia).
    rewrite IH.
    + cbn [map Nat.sub]. now rewrite <- !app_assoc.
    + lia.
    + unfold len in *. rewrite length_app. cbn [length]. lia.
Qed.

Lemma range_snoc (n : nat) :
  range 0 (Z.of_nat (S n)) = range 0 (Z.of_nat n) ++ [Z.of_nat n].
Proof.
  unfold range. rewrite !Z.sub_0_r, !Nat2Z.id, seq_S, map_app. reflexivity.
Qed.

(** The decoding loop over the first [n] pixels of an encoded image collects
    the first [n] code bytes and skips the untouched pixels. *)
Lemma decode_loop (code : list Z) (pad : nat) (n : nat) :
  Z.of_nat (length code + pad) = w * h ->
  (n <= length code + pad)%nat ->
  decode_code_from_image
    (mk_image w h (map enc code ++ repeat black pad)) (Z.of_nat n)
  = Ok (firstn n (map clip8 code)).
Proof.
  intros Hsize. unfold decode_code_from_image.
  induction n as [| n IH]; intros Hn; [reflexivity |].
  rewrite range_snoc, fold_left_app, IH by lia.
  cbn [fold_left bind]. unfold take_byte, py_mod, py_floordiv.
  cbn [width]. destruct (Z.eqb_spec w 0); [lia |]. cbn [bind].
  unfold getitem. rewrite locate_row_major by (cbn; auto; lia).
  cbn [bind px]. rewrite Nat2Z.id.
  destruct (Nat.lt_ge_cases n (length code)) as [Hin | Hout].
  - rewrite nth_error_app1 by (now rewrite length_map).
    rewrite nth_error_map.
    destruct (nth_error code n) as [byte |] eqn:Hb;
      [| apply nth_error_None in Hb; lia].
    cbn [option_map bind]. unfold enc at 1. cbn iota beta.
    change (255 =? 255) with true. cbn iota.
    unfold bytearray_extend. cbn [forallb].
    assert (Hc : is_byte (clip8 byte) = true).
    { unfold is_byte, clip8.
      destruct (Z.ltb_spec byte 0); [reflexivity |].
      destruct (Z.ltb_spec 255 byte); [reflexivity |].
      apply andb_true_iff; split; [apply Z.leb_le | apply Z.ltb_lt]; lia. }
    rewrite Hc. cbn [andb]. f_equal.
    assert (Hm : nth_error (map clip8 code) n = Some (clip8 byte))
      by (now rewrite nth_error_map, Hb).
    clear - Hm. revert n Hm.
    induction (map clip8 code) as [| x l IHl]; intros [| n] Hm;
      try discriminate.
    + cbn in Hm. injection Hm as ->. reflexivity.
    + cbn [firstn app]. cbn in Hm. now rewrite (IHl n Hm).
  - rewrite nth_error_app2 by (now rewrite length_map).
    rewrite length_map.
    destruct (nth_error (repeat black pad) (n - length code)) as [p |] eqn:Hp.
    + apply nth_error_In, repeat_spec in Hp. subst p. cbn [bind].
      change (0 =? 255) with false. cbn iota.
      rewrite !firstn_all2 by (rewrite length_map; lia). reflexivity.
    + apply nth_error_None in Hp. rewrite repeat_length in Hp. lia.
Qed.

End ImageRoundTrip.

Lemma is_byte_clip8 (code : list Z) :
  forallb is_byte code = true -> map ImageCodec.clip8 code = code.
Proof.
  induction code as [| byte code IH]; [reflexivity |].
  cbn [forallb map]. intros H. apply andb_true_iff in H. destruct H as [Hb Hc].
  rewrite (IH Hc). f_equal. unfold is_byte in Hb. unfold ImageCodec.clip8.
  apply andb_true_iff in Hb. destruct Hb as [H0 H1].
  apply Z.leb_le in H0. apply Z.ltb_lt in H1.
  destruct (Z.ltb_spec byte 0); [lia |].
  destruct (Z.ltb_spec 255 byte); [lia | reflexivity].
Qed.

(** The image [encode_with_width] produces: the code bytes in the red band
    of the first pixels, marked by a green band of 255, then black. *)
Lemma encode_with_width_eq (code : list Z) (width : Z) :
  1 <= width ->
  let height := len code / width + 1 in
  len code < width * height
  /\ ImageCodec.encode_with_width code width
     = Ok (ImageCodec.mk_image width height
             (map (fun byte => (ImageCodec.clip8 byte, 255, 0)) code
                ++ repeat (0, 0, 0)
                     (Z.to_nat (width * height) - length code)),
           (width, height, len code)).
Proof.
  intros Hw height.
  assert (Hq : 0 <= len code / width)
    by (apply Z.div_pos; unfold len; lia).
  assert (Hfit : len code < width * height).
  { pose proof (Z.div_mod (len code) width ltac:(lia)).
    pose proof (Z.mod_pos_bound (len code) width ltac:(lia)).
    unfold height. lia. }
  split; [assumption |].
  unfold ImageCodec.encode_with_width, ImageCodec.py_floordiv.
  destruct (Z.eqb_spec width 0); [lia |]. cbn [bind].
  fold height. unfold ImageCodec.Image_new.
  destruct (Z.ltb_spec width 0); [lia |].
  destruct (Z.ltb_spec height 0); [unfold height in *; lia |].
  cbn [orb bind]. change (ImageCodec.clip_pixel (0, 0, 0)) with (0, 0, 0).
  pose proof (encode_loop width height Hw code [] (Z.to_nat (width * height)))
    as Hloop.
  cbn [app len length Z.of_nat] in Hloop.
  rewrite Hloop by (unfold len in *; lia).
  reflexivity.
Qed.

Lemma encode_then_decode (code : list Z) (width : Z) :
  1 <= width -> forallb is_byte code = true ->
  exists img height,
    ImageCodec.encode_with_width code width
    = Ok (img, (width, height, len code))
    /\ height = len code / width + 1
    /\ len code < width * height
    /\ ImageCodec.width img = width /\ ImageCodec.height img = height
    /\ len (ImageCodec.px img) = width * height
    /\ ImageCodec.decode_code_from_image img (len code) = Ok code.
Proof.
  intros Hw Hbytes.
  destruct (encode_with_width_eq code width Hw) as [Hfit Henc].
  set (height := len code / width + 1) in *.
  assert (Hh : 0 <= height)
    by (unfold height; pose proof (Z.div_pos (len code) width); unfold len in *; lia).
  do 2 eexists. split; [exact Henc |].
  cbn [ImageCodec.width ImageCodec.height ImageCodec.px].
  repeat split; try assumption.
  - unfold len in *. rewrite length_app, length_map, repeat_length. lia.
  - change (len code) with (Z.of_nat (length code)).
    rewrite (decode_loop width height Hw) by (unfold len in *; lia).
    rewrite firstn_all2 by (now rewrite length_map).
    f_equal. now apply is_byte_clip8.
Qed.

(** X4: machine code encoded into an image, one byte per pixel, and decoded
    with the same length comes back unchanged, for every byte string and
    every positive width; the height the encoder chooses always leaves room
    for every byte, so neither loop ever indexes outside the image. *)
Theorem X4_image_round_trip (code : list Z) (width : Z) :
  1 <= width -> forallb is_byte code = true ->
  exists img height,
    ImageCodec.encode_with_width code width
    = Ok (img, (width, height, len code))
    /\ height = len code / width + 1
    /\ len code < width * height
    /\ ImageCodec.width img = width /\ ImageCodec.height img = height
    /\ len (ImageCodec.px img) = width * height
    /\ ImageCodec.decode_code_from_image img (len code) = Ok code.
Proof. exact (encode_then_decode code width). Qed.

Lemma X4_image_round_trip_witness :
  exists img height,
    ImageCodec.encode_with_width ImageCodec.create_hello_world_shellcode 8
    = Ok (img, (8, height, 49))
    /\ ImageCodec.decode_code_from_image img 49
       = Ok ImageCodec.create_hello_world_shellcode.
Proof.
  destruct (X4_image_round_trip ImageCodec.create_hello_world_shellcode 8)
    as (img & height & E & _ & _ & _ & _ & _ & D); [lia | reflexivity |].
  exists img, height. split; [exact E | exact D].
Defined.

Lemma fold_left_raise {A B : Type} (f : A -> B -> result A) (l : list B)
    (e : exn) :
  fold_left (fun acc i => x <- acc ;; f x i) l (Raise e) = Raise e.
Proof. induction l as [| i l IH]; [reflexivity | exact IH]. Qed.

Lemma range_split (k l : Z) :
  0 <= k < l -> exists tl, range 0 l = range 0 k ++ k :: tl.
Proof.
  intros Hk. unfold range. rewrite !Z.sub_0_r.
  replace (Z.to_nat l) with (Z.to_nat k + S (Z.to_nat (l - k - 1)))%nat by lia.
  rewrite seq_app, map_app. cbn [seq map Nat.add].
  eexists. f_equal. f_equal. lia.
Qed.

(** X5: an encoded image decoded with another length.  A shorter length
    gives that many leading bytes; any length from the code's up to the
    number of pixels gives the code itself, the unwritten pixels being
    skipped for want of the green marker; a length beyond the number of
    pixels fails with IndexError. *)
Theorem X5_image_decode_other_lengths (code : list Z) (width l : Z) :
  1 <= width -> forallb is_byte code = true ->
  exists img height,
    ImageCodec.encode_with_width code width
    = Ok (img, (width, height, len code))
    /\ (l <= width * height ->
        ImageCodec.decode_code_from_image img l = Ok (firstn (Z.to_nat l) code))
    /\ (len code <= l <= width * height ->
        ImageCodec.decode_code_from_image img l = Ok code)
    /\ (width * height < l ->
        ImageCodec.decode_code_from_image img l
        = Raise (IndexError "image index out of range")).
Proof.
  intros Hw Hbytes.
  destruct (encode_with_width_eq code width Hw) as [Hfit Henc].
  set (height := len code / width + 1) in *.
  assert (Hh : 0 <= height)
    by (unfold height; pose proof (Z.div_pos (len code) width);
        unfold len in *; lia).
  do 2 eexists. split; [exact Henc |].
  set (img := ImageCodec.mk_image _ _ _).
  assert (Hdec : forall n : nat,
             Z.of_nat n <= width * height ->
             ImageCodec.decode_code_from_image img (Z.of_nat n)
             = Ok (firstn n code)).
  { intros n Hn. subst img.
    rewrite (decode_loop width height Hw) by (unfold len in *; lia).
    now rewrite is_byte_clip8. }
  assert (Hle : forall k, k <= width * height ->
                ImageCodec.decode_code_from_image img k
                = Ok (firstn (Z.to_nat k) code)).
  { intros k Hk. destruct (Z_lt_le_dec k 0) as [Hneg | Hpos].
    - unfold ImageCodec.decode_code_from_image, range.
      replace (Z.to_nat (k - 0)) with 0%nat by lia.
      replace (Z.to_nat k) with 0%nat by lia. reflexivity.
    - rewrite <- (Z2Nat.id k) at 1 by lia. apply Hdec. lia. }
  split; [apply Hle |]. split.
  - intros Hl. rewrite Hle by lia.
    now rewrite firstn_all2 by (unfold len in *; lia).
  - intros Hl.
    destruct (range_split (width * height) l ltac:(lia)) as (tl & Hr).
    unfold ImageCodec.decode_code_from_image. rewrite Hr, fold_left_app.
    fold (ImageCodec.decode_code_from_image img (width * height)).
    rewrite Hle by lia. cbn [fold_left bind].
    unfold ImageCodec.take_byte at 2, ImageCodec.py_mod, ImageCodec.py_floordiv.
    cbn [ImageCodec.width img].
    destruct (Z.eqb_spec width 0); [lia |]. cbn [bind].
    unfold ImageCodec.getitem.
    rewrite (locate_outside width height Hw) by (cbn; auto; lia).
    cbn [bind]. apply fold_left_raise.
Qed.

Lemma X5_image_decode_other_lengths_witness :
  exists img height,
    ImageCodec.encode_with_width [0xb8; 0x2a; 0x00; 0x00; 0x00; 0xc3] 3
    = Ok (img, (3, height, 6))
    /\ ImageCodec.decode_code_from_image img 9
       = Ok [0xb8; 0x2a; 0x00; 0x00; 0x00; 0xc3]
    /\ ImageCodec.decode_code_from_image img 2 = Ok [0xb8; 0x2a].
Proof.
  destruct (X5_image_decode_other_lengths
              [0xb8; 0x2a; 0x00; 0x00; 0x00; 0xc3] 3 9)
    as (img & height & E & _ & D & _); [lia | reflexivity |].
  destruct (X5_image_decode_other_lengths
              [0xb8; 0x2a; 0x00; 0x00; 0x00; 0xc3] 3 2)
    as (img' & height' & E' & D' & _); [lia | reflexivity |].
  rewrite E in E'. injection E' as <- <-.
  exists img, height. split; [exact E |]. split.
  - apply D. assert (height = 3) by (rewrite (proj2 (encode_with_width_eq _ 3 ltac:(lia))) in E; now injection E). subst. cbn. lia.
  - apply D'. assert (height = 3) by (rewrite (proj2 (encode_with_width_eq _ 3 ltac:(lia))) in E; now injection E). subst. lia.
Defined.

(** What [execute_code] puts in memory for a non-empty byte string: a
    region exactly as long as the code, holding the code, rewound and
    executable. *)
Lemma load_ok (code_bytes : list Z) :
  code_bytes <> [] ->
  ImageExecutor.load code_bytes
  = Ok (mk_mmap code_bytes (len code_bytes) 0 SelfModify.RWX
                SelfModify.PRIVATE_ANON false).
Proof.
  intros Hne.
  assert (Hn : 0 < len code_bytes)
    by (destruct code_bytes; [congruence | unfold len; cbn; lia]).
  unfold ImageExecutor.load, SelfModify.exec_mem.
  rewrite mmap_new_ok by assumption. cbn [bind].
  set (m0 := mk_mmap _ _ _ _ _ _).
  assert (Hwf0 : mmap_wf m0)
    by (eapply mmap_new_wf; apply mmap_new_ok with (n := len code_bytes);
        assumption).
  rewrite (mmap_write_ok m0 code_bytes Hwf0 eq_refl) by (cbn; lia).
  cbn [bind]. rewrite mmap_seek_ok by (cbn; auto; lia).
  cbn [data size prot flags pos m0 firstn Z.to_nat app]. do 2 f_equal.
  unfold len. rewrite Z.add_0_l, Nat2Z.id.
  rewrite skipn_all2 by (rewrite repeat_length; lia).
  apply app_nil_r.
Qed.

(** X6: the pipeline of [main], for any non-empty code and any positive
    width: the bytes decoded from the image pass the comparison with the
    original, and the executable region [execute_code] then fills holds
    exactly the original code from offset 0, with nothing before, after or
    in between. *)
Theorem X6_image_pipeline_loads_the_code (shellcode : list Z) (width : Z) :
  1 <= width -> forallb is_byte shellcode = true -> shellcode <> [] ->
  exists mem,
    ImageCodec.encode_decode_load shellcode width = Ok (Some mem)
    /\ data mem = shellcode
    /\ size mem = len shellcode
    /\ pos mem = 0
    /\ has_flag (prot mem) PROT_EXEC = true.
Proof.
  intros Hw Hbytes Hne.
  destruct (encode_then_decode shellcode width Hw Hbytes)
    as (img & height & E & _ & _ & _ & _ & _ & D).
  unfold ImageCodec.encode_decode_load. rewrite E. cbn [bind]. rewrite D.
  cbn [bind].
  destruct (list_eq_dec Z.eq_dec shellcode shellcode) as [_ | Hc];
    [| congruence].
  rewrite load_ok by assumption. cbn [bind].
  eexists. split; [reflexivity |]. repeat split.
Qed.

Lemma X6_image_pipeline_loads_the_code_witness :
  exists mem,
    ImageCodec.encode_decode_load ImageCodec.create_hello_world_shellcode 8
    = Ok (Some mem)
    /\ data mem = ImageCodec.create_hello_world_shellcode.
Proof.
  destruct (X6_image_pipeline_loads_the_code
              ImageCodec.create_hello_world_shellcode 8)
    as (mem & E & D & _); [lia | reflexivity | discriminate |].
  exists mem. split; [exact E | exact D].
Defined.

(** ** The self-checks of self_modify.py and validate_mmap.py *)

Lemma signed32_wrap32_fixed (x : Z) :
  X86.signed32 (X86.wrap32 x) = x <-> -2147483648 <= x < 2147483648.
Proof.
  split.
  - intros <-. pose proof (signed32_bounds _ (wrap32_range x)). lia.
  - apply signed32_wrap32.
Qed.

(** X7: the comparison [result != expected] of part 6 accepts a compiled
    expression exactly when [a + b * c] fits in a signed 32-bit integer: the
    routine's result always lies in that range and is congruent to
    [a + b * c] modulo 2^32, so it equals the unbounded Python value if and
    only if that value is in range. *)
Theorem X7_add_mul_check_passes_iff_in_range
    (fuel : nat) (caller : X86.state) (exec_mem3 : mmap) (a b c : Z) :
  mmap_wf exec_mem3 ->
  has_flag (prot exec_mem3) PROT_WRITE = true ->
  has_flag (prot exec_mem3) PROT_EXEC = true ->
  21 <= size exec_mem3 ->
  exists m' result,
    SelfModify.jit_run (6 + fuel) caller exec_mem3 a b c = Ok (m', result)
    /\ -2 ^ 31 <= result < 2 ^ 31
    /\ result mod 2 ^ 32 = (a + b * c) mod 2 ^ 32
    /\ (negb (result =? a + b * c) = false <-> -2 ^ 31 <= a + b * c < 2 ^ 31).
Proof.
  intros Hwf Hw Hx Hsz.
  destruct (jit_run_spec fuel caller exec_mem3 a b c Hwf Hw Hx Hsz)
    as (m' & E & _).
  exists m', (X86.signed32 (X86.wrap32 (a + b * c))).
  split; [exact E |].
  change (2 ^ 31) with 2147483648. change (2 ^ 32) with 4294967296.
  split; [| split].
  - pose proof (signed32_bounds _ (wrap32_range (a + b * c))). lia.
  - change (X86.wrap32 (X86.signed32 (X86.wrap32 (a + b * c)))
            = X86.wrap32 (a + b * c)).
    now rewrite wrap32_signed32, wrap32_idem.
  - rewrite negb_false_iff, Z.eqb_eq. apply signed32_wrap32_fixed.
Qed.

Lemma X7_add_mul_check_passes_iff_in_range_witness :
  exists m' result,
    SelfModify.jit_run 6 (X86.mk_state (X86.mk_regs 9 8 7 6 5 4 3 2)
                                       (X86.mk_flags false true false true) 0)
      (mk_mmap (repeat 0x00 21) 21 0 SelfModify.RWX SelfModify.PRIVATE_ANON false)
      2147483647 1 1
    = Ok (m', result)
    /\ result mod 2 ^ 32 = (2147483647 + 1 * 1) mod 2 ^ 32.
Proof.
  destruct (X7_add_mul_check_passes_iff_in_range
              0 (X86.mk_state (X86.mk_regs 9 8 7 6 5 4 3 2)
                              (X86.mk_flags false true false true) 0)
              (mk_mmap (repeat 0x00 21) 21 0 SelfModify.RWX
                       SelfModify.PRIVATE_ANON false)
              2147483647 1 1)
    as (m' & result & E & _ & M & _).
  - repeat split; cbn; lia.
  - reflexivity.
  - reflexivity.
  - cbn; lia.
  - exists m', result. split; [exact E | exact M].
Defined.

(** X8: a region holding [mov eax, imm; ret] called with result type
    [c_uint32], as validate_mmap.py does, returns [imm] itself for every
    32-bit [imm]; with result type [c_int], as self_modify.py does, it
    returns [imm - 2^32] once [imm] reaches 2^31.  So validate_mmap.py reads
    back its six bytes unchanged and gets 0xDEADBEEF = 3735928559, where
    [c_int] would have given -559038737. *)
Theorem X8_result_type_decides_the_sign
    (fuel : nat) (caller : X86.state) (m : mmap) (imm : Z) (rest : list Z) :
  holds_mov_ret m imm rest -> 0 <= imm < 4294967296 ->
  call (2 + fuel) caller (CFUNCTYPE c_uint32 [] 0) m [] = Ok imm
  /\ call (2 + fuel) caller (CFUNCTYPE c_int [] 0) m []
     = Ok (if imm <? 2147483648 then imm else imm - 4294967296)
  /\ ValidateMmap.validate (2 + fuel) caller = Ok (true, 0xDEADBEEF)
  /\ (forall mem read_back,
        ValidateMmap.write_then_read ValidateMmap.code = Ok (mem, read_back) ->
        call (2 + fuel) caller (CFUNCTYPE c_int [] 0) mem [] = Ok (-559038737)).
Proof.
  intros Hm Himm.
  change (2 + fuel)%nat with (S (S fuel)).
  split; [| split; [| split]].
  - rewrite (call_mov_ret fuel caller c_uint32 m imm rest Hm Himm).
    cbn [of_c]. now rewrite wrap32_small.
  - rewrite (call_mov_ret fuel caller c_int m imm rest Hm Himm).
    cbn [of_c]. rewrite wrap32_small by assumption.
    unfold X86.signed32, X86.msb32.
    destruct (Z.leb_spec 2147483648 imm), (Z.ltb_spec imm 2147483648);
      try lia; reflexivity.
  - vm_compute. reflexivity.
  - intros mem read_back E. vm_compute in E. injection E as <- _.
    vm_compute. reflexivity.
Qed.

Lemma X8_result_type_decides_the_sign_witness :
  call 2 (X86.mk_state (X86.mk_regs 9 8 7 6 5 4 3 2)
                       (X86.mk_flags false true false true) 0)
       (CFUNCTYPE c_uint32 [] 0)
       (mk_mmap (0xb8 :: le_bytes 0xDEADBEEF ++ [0xc3]) 6 6 SelfModify.RWX
                SelfModify.PRIVATE_ANON false) []
  = Ok 0xDEADBEEF.
Proof.
  refine (proj1 (X8_result_type_decides_the_sign
                   0 _ (mk_mmap (0xb8 :: le_bytes 0xDEADBEEF ++ [0xc3]) 6 6
                                SelfModify.RWX SelfModify.PRIVATE_ANON false)
                   0xDEADBEEF [] _ _)).
  - repeat split; cbn; lia.
  - lia.
Defined.

Lemma struct_pack_I_inv (v : Z) (bytes : list Z) :
  struct_pack_I v = Ok bytes -> bytes = le_bytes v /\ 0 <= v < 4294967296.
Proof.
  unfold struct_pack_I.
  destruct (Z.leb_spec 0 v); [| discriminate].
  destruct (Z.leb_spec v 4294967295); [| discriminate].
  cbn. intros [= <-]. split; [reflexivity | lia].
Qed.

Lemma mmap_seek_inv (m m' : mmap) (target : Z) :
  mmap_seek m target = Ok m' ->
  m' = mk_mmap (data m) (size m) target (prot m) (flags m) false
  /\ closed m = false /\ 0 <= target <= size m.
Proof.
  unfold mmap_seek. destruct (closed m); [discriminate |].
  destruct (Z.ltb_spec target 0); [discriminate |].
  destruct (Z.ltb_spec (size m) target); [discriminate |].
  cbn. intros [= <-]. repeat split; lia.
Qed.

Lemma mmap_write_inv (m m' : mmap) (bytes : list Z) :
  mmap_write m bytes = Ok m' ->
  m' = mk_mmap (firstn (Z.to_nat (pos m)) (data m) ++ bytes
                  ++ skipn (Z.to_nat (pos m + len bytes)) (data m))
               (size m) (pos m + len bytes) (prot m) (flags m) false
  /\ closed m = false /\ has_flag (prot m) PROT_WRITE = true
  /\ pos m + len bytes <= size m.
Proof.
  unfold mmap_write. destruct (closed m); [discriminate |].
  destruct (has_flag (prot m) PROT_WRITE); [| discriminate].
  destruct (Z.ltb_spec (size m) (pos m)); [discriminate |].
  destruct (Z.ltb_spec (size m - pos m) (len bytes)); [discriminate |].
  cbn. intros [= <-]. repeat split; lia.
Qed.

(** X9: one iteration of the patch loop of part 5, on a live region with any
    contents.  If it completes, the call came back first and its value is the
    one appended to the results; the new value fitted 32 bits; the region
    has kept its size and protection, holds the four bytes of
    [(i + 1) * 100] at offsets 1 to 4 and is unchanged everywhere else; and
    the position is left at 5. *)
Theorem X9_patch_iteration_touches_only_the_immediate
    (fuel : nat) (caller : X86.state) (m m' : mmap) (results results' : list Z)
    (i : Z) :
  mmap_wf m ->
  SelfModify.iteration fuel caller (m, results) i = Ok (m', results') ->
  (exists result,
      call fuel caller SelfModify.dynamic_func m [] = Ok result
      /\ results' = results ++ [result])
  /\ 0 <= (i + 1) * 100 < 4294967296
  /\ size m' = size m /\ prot m' = prot m /\ pos m' = 5 /\ mmap_wf m'
  /\ firstn 4 (skipn 1 (data m')) = le_bytes ((i + 1) * 100)
  /\ (forall k, (k < 1 \/ 5 <= k)%nat ->
        nth_error (data m') k = nth_error (data m) k).
Proof.
  intros Hwf. pose proof Hwf as (Hc & Hl & Hp).
  unfold SelfModify.iteration.
  destruct (call fuel caller SelfModify.dynamic_func m []) as [result |];
    cbn [bind]; [| discriminate].
  destruct (struct_pack_I ((i + 1) * 100)) as [new_bytes |] eqn:Ep;
    cbn [bind]; [| discriminate].
  apply struct_pack_I_inv in Ep. destruct Ep as [-> Hv].
  destruct (mmap_seek m 1) as [m1 |] eqn:Es; cbn [bind]; [| discriminate].
  apply mmap_seek_inv in Es. destruct Es as (-> & _ & Hs).
  set (m1 := mk_mmap _ _ _ _ _ _).
  assert (Hwf1 : mmap_wf m1) by (repeat split; cbn; auto; lia).
  destruct (mmap_write m1 (le_bytes ((i + 1) * 100))) as [m2 |] eqn:Ew;
    cbn [bind]; [| discriminate].
  intros [= <- <-].
  destruct (mmap_write_wf _ _ _ Hwf1 Ew) as (Hwf2 & _).
  apply mmap_write_inv in Ew. destruct Ew as (-> & _ & _ & Hfit).
  cbn [size prot pos data m1] in *.
  change (len (le_bytes ((i + 1) * 100))) with 4 in *.
  change (Z.to_nat 1) with 1%nat. change (Z.to_nat (1 + 4)) with 5%nat.
  assert (Hlen : (5 <= length (data m))%nat) by (unfold len in Hl; lia).
  destruct (data m) as [| b0 d]; [cbn in Hlen; lia |].
  cbn [length] in Hlen.
  do 4 (destruct d as [| ? d]; [cbn in Hlen; lia |]).
  split; [eauto |]. split; [assumption |].
  repeat split; try apply Hwf2.
  intros k [Hk | Hk].
  - replace k with 0%nat by lia. reflexivity.
  - do 5 (destruct k as [| k]; [lia |]). reflexivity.
Qed.

Lemma X9_patch_iteration_touches_only_the_immediate_witness :
  firstn 4 (skipn 1 [0xb8; 0x2c; 0x01; 0x00; 0x00; 0xc3; 0x90]) = le_bytes 300.
Proof.
  refine (proj1 (proj2 (proj2 (proj2 (proj2 (proj2 (proj2
            (X9_patch_iteration_touches_only_the_immediate
               2 (X86.mk_state (X86.mk_regs 9 8 7 6 5 4 3 2)
                               (X86.mk_flags false true false true) 0)
               (mk_mmap [0xb8; 0x07; 0x00; 0x00; 0x00; 0xc3; 0x90] 7 0
                        SelfModify.RWX SelfModify.PRIVATE_ANON false)
               (mk_mmap [0xb8; 0x2c; 0x01; 0x00; 0x00; 0xc3; 0x90] 7 5
                        SelfModify.RWX SelfModify.PRIVATE_ANON false)
               [] [7] 2 _ _)))))))).
  - repeat split; cbn; lia.
  - reflexivity.
Defined.

(** ** The printed breakdown of the Fibonacci routine *)

(** X10: the byte-by-byte breakdown jit_fibonacci.py prints is the routine's
    true disassembly.  Walking the code with the sizes of the annotation
    table ends exactly at its last byte; the chunks put together are the code;
    each chunk is, for the processor, one whole instruction of that very
    length; and the instructions are the ones the table names, the second
    row reading "jle +29 (to return_n)". *)
Theorem X10_breakdown_is_the_disassembly :
  exists asm rows,
    JitFibonacci.assemble = Ok asm
    /\ FibonacciReport.breakdown
         (JitFibonacci.fibonacci_code asm)
         (FibonacciReport.annotations (JitFibonacci.jle_target_offset asm))
       = (len (JitFibonacci.fibonacci_code asm), rows)
    /\ concat (map (fun '(_, chunk, _) => chunk) rows)
       = JitFibonacci.fibonacci_code asm
    /\ map (fun '(idx, chunk, _) =>
              (idx, X86.decode (JitFibonacci.fibonacci_code asm) idx, len chunk))
           rows
       = [(0, Some (X86.CMP_r_imm8 X86.EDI 1, 3), 3);
          (3, Some (X86.JLE 29, 2), 2);
          (5, Some (X86.XOR_rr X86.EAX X86.EAX, 2), 2);
          (7, Some (X86.MOV_r_imm32 X86.EDX 1, 5), 5);
          (12, Some (X86.MOV_r_imm32 X86.ECX 2, 5), 5);
          (17, Some (X86.MOV_rr X86.ESI X86.EDX, 2), 2);
          (19, Some (X86.ADD_rr X86.ESI X86.EAX, 2), 2);
          (21, Some (X86.MOV_rr X86.EAX X86.EDX, 2), 2);
          (23, Some (X86.MOV_rr X86.EDX X86.ESI, 2), 2);
          (25, Some (X86.INC_r X86.ECX, 2), 2);
          (27, Some (X86.CMP_rr X86.ECX X86.EDI, 2), 2);
          (29, Some (X86.JLE (-14), 2), 2);
          (31, Some (X86.MOV_rr X86.EAX X86.EDX, 2), 2);
          (33, Some (X86.RET, 1), 1);
          (34, Some (X86.MOV_rr X86.EAX X86.EDI, 2), 2);
          (36, Some (X86.RET, 1), 1)]
    /\ nth_error (map (fun '(_, _, desc) => desc) rows) 1
       = Some "jle +29 (to return_n)"%string.
Proof.
  do 2 eexists. split; [apply assemble_eq |].
  cbn [JitFibonacci.fibonacci_code JitFibonacci.jle_target_offset].
  split; [vm_compute; reflexivity |].
  repeat split.
Qed.


(** ** The shellcode carried by the image *)

Lemma run64_S (fuel : nat) (base : Z) (mem : list Z) (s : X64.state) :
  X64.run (S fuel) base mem s
  = match X64.decode mem (X64.pc s) with
    | None => X64.Fault
    | Some (i, n) =>
        match X64.exec base mem i n s with
        | X64.Next s' => X64.run fuel base mem s'
        | X64.Return_ s' => X64.Returned s'
        | X64.Stop => X64.Fault
        end
    end.
Proof. reflexivity. Qed.

Lemma hello_run (fuel : nat) (base : Z) (caller : X64.regfile) :
  0 <= base -> base + 49 <= 18446744073709551616 ->
  exists s,
    X64.run (6 + fuel) base ImageCodec.create_hello_world_shellcode
            (X64.mk_state caller 0 [])
    = X64.Returned s
    /\ X64.out s = [(1, bytes_of_string "Hello from image!" ++ [10])]
    /\ X64.regs s 0 = 18.
Proof.
  intros Hb Hfit.
  change (6 + fuel)%nat with (S (S (S (S (S (S fuel)))))).
  change (X64.run (S (S (S (S (S (S fuel)))))) base
            ImageCodec.create_hello_world_shellcode (X64.mk_state caller 0 []))
    with (X64.run (S (S fuel)) base ImageCodec.create_hello_world_shellcode
            (X64.mk_state
               (X64.set 2 18
                  (X64.set 6 (X64.wrap64 (base + 21 + 10))
                     (X64.set 7 1 (X64.set 0 1 caller))))
               28 [])).
  rewrite run64_S. cbn [X64.pc].
  change (X64.decode ImageCodec.create_hello_world_shellcode 28)
    with (Some (X64.SYSCALL, 2)).
  cbv beta iota.
  set (f := X64.set 2 18 _).
  assert (H0 : f 0 = 1) by reflexivity.
  assert (H2 : f 2 = 18) by reflexivity.
  assert (H7 : f 7 = 1) by reflexivity.
  assert (H6 : f 6 = base + 31).
  { change (f 6) with (X64.wrap64 (base + 21 + 10)).
    unfold X64.wrap64. rewrite Z.mod_small; lia. }
  assert (Hr : X64.read_bytes base ImageCodec.create_hello_world_shellcode
                 (base + 31) 18
               = Some (bytes_of_string "Hello from image!" ++ [10])).
  { unfold X64.read_bytes.
    change (len ImageCodec.create_hello_world_shellcode) with 49.
    destruct (Z.leb_spec base (base + 31)); [| lia].
    destruct (Z.leb_spec (base + 31 + 18) (base + 49)); [| lia].
    replace (base + 31 - base) with 31 by lia. reflexivity. }
  unfold X64.exec. cbn [X64.regs X64.pc X64.out].
  rewrite H0, H2, H6, H7, Hr. cbv beta iota.
  change (1 =? 1) with true. cbv iota.
  rewrite run64_S. cbn [X64.pc].
  change (X64.decode ImageCodec.create_hello_world_shellcode (28 + 2))
    with (Some (X64.RET, 1)).
  cbv beta iota. cbn [X64.exec].
  eexists. split; [reflexivity |]. split; reflexivity.
Qed.

Lemma execute_hello (fuel : nat) (base : Z) (caller : X64.regfile) :
  0 <= base -> base + 49 <= 18446744073709551616 ->
  execute_code (6 + fuel) base caller ImageCodec.create_hello_world_shellcode
  = Ok [(1, bytes_of_string "Hello from image!" ++ [10])].
Proof.
  intros Hb Hfit.
  unfold execute_code. rewrite load_ok by discriminate. cbn [bind].
  cbn [closed prot data]. change (has_flag SelfModify.RWX PROT_EXEC) with true.
  cbn [negb orb].
  destruct (hello_run fuel base caller Hb Hfit) as (s & -> & Hout & _).
  now rewrite Hout.
Qed.

(** X11: the shellcode of [create_hello_world_shellcode], loaded by
    [execute_code] at any address and called, performs exactly one system
    call, [write(1, message, 18)] with [message] the eighteen bytes of
    "Hello from image!" and a line feed that follow the code, and then
    returns: the rip-relative [lea] finds the message wherever the region is
    mapped, and the length in rdx is the message's. *)
Theorem X11_shellcode_writes_the_message
    (fuel : nat) (base : Z) (caller : X64.regfile) :
  0 <= base -> base + 49 <= 2 ^ 64 ->
  execute_code (6 + fuel) base caller ImageCodec.create_hello_world_shellcode
  = Ok [(1, bytes_of_string "Hello from image!" ++ [10])]
  /\ len (bytes_of_string "Hello from image!" ++ [10]) = 18
  /\ skipn 31 ImageCodec.create_hello_world_shellcode
     = bytes_of_string "Hello from image!" ++ [10].
Proof.
  intros Hb Hfit. change (2 ^ 64) with 18446744073709551616 in Hfit.
  split; [| split; reflexivity].
  now apply execute_hello.
Qed.

Lemma X11_shellcode_writes_the_message_witness :
  execute_code 6 140737488351232 (fun _ => 0)
               ImageCodec.create_hello_world_shellcode
  = Ok [(1, bytes_of_string "Hello from image!" ++ [10])].
Proof.
  refine (proj1 (X11_shellcode_writes_the_message 0 140737488351232 _ _ _));
    lia.
Defined.

(** X12: the whole experiment of image_executor_v2.py, for any positive
    width of the image and any address of the region: the code that went
    through the image passes the comparison, is executed, and writes
    "Hello from image!" and a line feed to descriptor 1, once. *)
Theorem X12_main_prints_hello
    (fuel : nat) (base : Z) (caller : X64.regfile) (width : Z) :
  1 <= width -> 0 <= base -> base + 49 <= 2 ^ 64 ->
  main (6 + fuel) base caller width
  = Ok (Some [(1, bytes_of_string "Hello from image!" ++ [10])]).
Proof.
  intros Hw Hb Hfit. change (2 ^ 64) with 18446744073709551616 in Hfit.
  unfold main.
  destruct (encode_then_decode ImageCodec.create_hello_world_shellcode width
              Hw eq_refl)
    as (img & height & -> & _ & _ & _ & _ & _ & D).
  cbn [bind]. rewrite D. cbn [bind].
  destruct (list_eq_dec Z.eq_dec ImageCodec.create_hello_world_shellcode
              ImageCodec.create_hello_world_shellcode) as [_ | Hc];
    [| congruence].
  now rewrite execute_hello.
Qed.

Lemma X12_main_prints_hello_witness :
  main 6 140737488351232 (fun _ => 0) 8
  = Ok (Some [(1, bytes_of_string "Hello from image!" ++ [10])]).
Proof.
  apply (X12_main_prints_hello 0 140737488351232 _ 8); lia.
Defined.

(** ** The reference function *)

Lemma fib_python_pos (n : Z) :
  1 <= n ->
  JitFibonacci.fib_python n = snd (Nat.iter (Z.to_nat (n - 1)) fib_step (0, 1)).
Proof.
  intros Hn. destruct (Z.eq_dec n 1) as [-> | Hne]; [reflexivity |].
  apply fib_python_iter. lia.
Qed.

(** X13: [fib_python] is the Fibonacci sequence: 0 at 0, 1 at 1, and from
    then on each value is the sum of the two before it, for every
    non-negative argument; a negative argument is returned as it is. *)
Theorem X13_fib_python_is_fibonacci (k : nat) (p : positive) :
  JitFibonacci.fib_python 0 = 0
  /\ JitFibonacci.fib_python 1 = 1
  /\ JitFibonacci.fib_python (Z.of_nat k + 2)
     = JitFibonacci.fib_python (Z.of_nat k + 1)
       + JitFibonacci.fib_python (Z.of_nat k)
  /\ JitFibonacci.fib_python (Z.neg p) = Z.neg p.
Proof.
  split; [reflexivity |]. split; [reflexivity |]. split.
  - destruct k as [| k]; [reflexivity |].
    set (n := Z.of_nat (S k)). assert (Hn : 1 <= n) by lia.
    rewrite !fib_python_pos by lia.
    replace (Z.to_nat (n + 2 - 1)) with (S (S (Z.to_nat (n - 1)))) by lia.
    replace (Z.to_nat (n + 1 - 1)) with (S (Z.to_nat (n - 1))) by lia.
    cbn [Nat.iter nat_rect].
    change (nat_rect _ (0, 1) (fun _ => fib_step) (Z.to_nat (n - 1)))
      with (Nat.iter (Z.to_nat (n - 1)) fib_step (0, 1)).
    unfold fib_step. cbn [fst snd]. lia.
  - unfold JitFibonacci.fib_python.
    destruct (Z.leb_spec (Z.neg p) 1); [reflexivity | lia].
Qed.
